(** * trainingdata-tool: PGN games to lc0 V4 training records

    A shallow embedding of [src/trainingdata-tool.cpp] and the properties of
    its per-move pipeline: score extraction from PGN comments, conversion of
    a score to an expected outcome, translation of a polyglot move to an lc0
    move, the V4 training record, the per-game loop, and the command line
    and the game counter of [main].

    Conventions.
    - C [int] and [size_t] values are [Z]; no arithmetic of the modelled
      code leaves the range of its type on the inputs considered.  A
      division by zero, a write through a null pointer and an exception
      that nothing catches are ways a pass, a call or the program ends.
    - C [float] and [double] values are primitive binary64 floats
      ([PrimFloat.float]); every binary32 value is one of them.  The array
      [probabilities] is kept as the 32-bit patterns of its cells, because
      the source fills it with [memset].
    - The polyglot library, the lc0 library, [exp] and [std::stof] are not
      part of [src/]; they are interfaces (type classes) here.  [std::regex]
      is modelled for the part of the ECMAScript grammar the patterns of
      the tool are written in. *)

From Stdlib Require Import ZArith List String Ascii Bool Lia.
From Stdlib Require Import PrimFloat SpecFloat FloatOps Uint63.
From stdpp Require Import base list.
Import ListNotations.

Open Scope Z_scope.

(** ** Binary32 cells *)

Module F32.

(** Fields of a 32-bit pattern: sign (bit 31), biased exponent (bits
    23..30) and fraction (bits 0..22). *)
Definition sign_bit (w : Z) : bool := Z.testbit w 31.
Definition exponent (w : Z) : Z := Z.land (Z.shiftr w 23) 0xFF.
Definition fraction (w : Z) : Z := Z.land w 0x7FFFFF.

(** The value a pattern stands for (IEEE 754 binary32). *)
Definition decode (w : Z) : spec_float :=
  let s := sign_bit w in
  let e := exponent w in
  let m := fraction w in
  if e =? 255 then (if m =? 0 then S754_infinity s else S754_nan)
  else if e =? 0 then
    match m with
    | Zpos p => S754_finite s p (-149)
    | _ => S754_zero s
    end
  else
    match m + 2 ^ 23 with
    | Zpos p => S754_finite s p (e - 150)
    | _ => S754_nan
    end.

(** Reading a cell as a C [float]. *)
Definition to_float (w : Z) : float := SF2Prim (decode w).

(** Rounding to binary32 (round to nearest, ties to even), as a C
    conversion from [double] to [float] or a [float] literal does. *)
Definition round (x : spec_float) : spec_float :=
  match x with
  | S754_finite s m e => binary_round 24 128 s m e
  | _ => x
  end.

(** The pattern of a binary32 value. *)
Definition encode (x : spec_float) : Z :=
  let sgn (s : bool) := if s then Z.shiftl 1 31 else 0 in
  match x with
  | S754_zero s => sgn s
  | S754_infinity s => Z.lor (sgn s) 0x7F800000
  | S754_nan => 0x7FC00000
  | S754_finite s m e =>
      if Zpos m <? 2 ^ 23 then Z.lor (sgn s) (Zpos m)
      else Z.lor (sgn s) (Z.lor (Z.shiftl (e + 150) 23) (Zpos m - 2 ^ 23))
  end.

(** Storing a C value in a [float] cell. *)
Definition of_float (x : float) : Z := encode (round (Prim2SF x)).

(** Rounding a [double] to the nearest [float]. *)
Definition to_single (x : float) : float := SF2Prim (round (Prim2SF x)).

(** Conversion of a floating value to [int]: the fractional part is
    discarded.  Used where the source passes [-1.0f] for an [int]
    parameter. *)
Definition to_int (x : float) : Z :=
  match Prim2SF x with
  | S754_finite s m e =>
      let a := if 0 <=? e then Zpos m * 2 ^ e else Zpos m / 2 ^ (- e) in
      if s then - a else a
  | _ => 0
  end.

(** [std::memset(dest, ch, count)] over an array of [n] [float] cells:
    [ch] is converted to [unsigned char] and written to every byte. *)
Definition byte_of_int (ch : Z) : Z := ch mod 256.

Definition cell_of_byte (b : Z) : Z :=
  Z.lor b (Z.lor (Z.shiftl b 8) (Z.lor (Z.shiftl b 16) (Z.shiftl b 24))).

Definition memset (ch : Z) (n : nat) : list Z :=
  replicate n (cell_of_byte (byte_of_int ch)).

End F32.

(** ** ScoreExtractor: [extract_fishtest_comment_score] *)

(** The exceptions of the C++ standard library the tool can meet; it
    catches none, so a throw ends the program in [std::terminate]. *)
Inductive exception := regex_error | out_of_range.

(** How a call of a function that may throw ends. *)
Inductive outcome (A : Type) :=
| Returns (a : A)
| Throws (e : exception).

Arguments Returns {A} a.
Arguments Throws {A} e.

(** The C++ standard library: [exp] of [<cmath>] on [double], and
    [std::stof] on the text of a match, which throws [std::out_of_range]
    for a numeral outside the range of [float]. *)
Class Libc := {
  exp : float -> float;
  stof : list ascii -> outcome float
}.

(** [std::regex] with the default ECMAScript grammar, for the part of the
    grammar the patterns of the tool are written in: pattern characters,
    the dot, the escape [\d] and escaped syntax characters, capturing
    groups, alternatives and the quantifiers.  Character classes,
    assertions, back-references and the other escapes are outside the
    model, which rejects them; the tool has no pattern with one of them.

    ECMA-262: Term :: Assertion | Atom | Atom Quantifier, and
    PatternCharacter :: SourceCharacter but not one of
    [^ $ \ . * + ? ( ) [ ] { } |].  A brace can therefore not start a
    term. *)
Module Regex.

(** A compiled pattern.  [Rep a lo hi greedy] is [a] repeated from [lo]
    to [hi] times ([None]: without bound); [Group i a] is the [i]-th
    capturing group. *)
Inductive regex :=
| Chr (c : ascii)
| AnyChr
| Digit
| Empty
| Seq (a b : regex)
| Alt (a b : regex)
| Rep (a : regex) (lo : nat) (hi : option nat) (greedy : bool)
| Group (i : nat) (a : regex).

(** [\d] *)
Definition is_digit (c : ascii) : bool :=
  let n := nat_of_ascii c in (48 <=? n)%nat && (n <=? 57)%nat.

Definition one_of (cs : string) (c : ascii) : bool :=
  existsb (Ascii.eqb c) (list_ascii_of_string cs).

(** The characters that are no pattern characters. *)
Definition syntax_character : ascii -> bool := one_of "^$\.*+?()[]{}|".

(** The digits at the head of [s], as a number, and what follows. *)
Fixpoint decimal (s : list ascii) (acc : nat) : nat * list ascii :=
  match s with
  | c :: s' =>
      if is_digit c then decimal s' (10 * acc + (nat_of_ascii c - 48))%nat
      else (acc, s)
  | [] => (acc, [])
  end.

(** What stands after an atom: no quantifier, a quantifier and the rest of
    the pattern, or a brace that does not open an interval. *)
Inductive quantifier :=
| NoQuantifier
| Quantifier (lo : nat) (hi : option nat) (rest : list ascii)
| BadQuantifier.

(** [{n}], [{n,}] and [{n,m}] after the brace. *)
Definition interval (s : list ascii) : quantifier :=
  match s with
  | c :: _ =>
      if is_digit c then
        let '(lo, s1) := decimal s 0 in
        match s1 with
        | "}"%char :: rest => Quantifier lo (Some lo) rest
        | ","%char :: "}"%char :: rest => Quantifier lo None rest
        | ","%char :: (c' :: _) as s2 =>
            if is_digit c' then
              let '(hi, s3) := decimal s2 0 in
              match s3 with
              | "}"%char :: rest =>
                  if (lo <=? hi)%nat then Quantifier lo (Some hi) rest
                  else BadQuantifier
              | _ => BadQuantifier
              end
            else BadQuantifier
        | _ => BadQuantifier
        end
      else BadQuantifier
  | [] => BadQuantifier
  end.

Definition quantifier_prefix (s : list ascii) : quantifier :=
  match s with
  | "*"%char :: rest => Quantifier 0 None rest
  | "+"%char :: rest => Quantifier 1 None rest
  | "?"%char :: rest => Quantifier 0 (Some 1%nat) rest
  | "{"%char :: rest => interval rest
  | _ => NoQuantifier
  end.

(** An atom with its quantifier, lazy when a question mark follows it. *)
Definition quantified (a : regex) (s : list ascii)
    : option (regex * list ascii) :=
  match quantifier_prefix s with
  | NoQuantifier => Some (a, s)
  | Quantifier lo hi ("?"%char :: rest) => Some (Rep a lo hi false, rest)
  | Quantifier lo hi rest => Some (Rep a lo hi true, rest)
  | BadQuantifier => None
  end.

(** Alternative and Disjunction, from the pattern [s] with [n] the index
    of the next group: the expression, the rest of the pattern and the next
    index.  An alternative ends where no term can start: at the end of the
    pattern, at a bar, at a closing parenthesis, and at a quantifier
    character or a closing brace or bracket, none of which is a pattern
    character.  [fuel] bounds the depth of the descent. *)
Fixpoint alternative (fuel : nat) (s : list ascii) (n : nat)
    : option (regex * list ascii * nat) :=
  match fuel with
  | O => None
  | S fuel =>
      let term (a : regex) (rest : list ascii) (n : nat) :=
        match quantified a rest with
        | Some (a, rest) =>
            match alternative fuel rest n with
            | Some (b, rest, n) => Some (Seq a b, rest, n)
            | None => None
            end
        | None => None
        end in
      match s with
      | [] => Some (Empty, [], n)
      | c :: s' =>
          if one_of "|)*+?{}]" c then Some (Empty, s, n)
          else if Ascii.eqb c "(" then
            match s' with
            | "?"%char :: _ => None
            | _ =>
                match disjunction fuel s' (S n) with
                | Some (a, ")"%char :: rest, n') => term (Group n a) rest n'
                | _ => None
                end
            end
          else if Ascii.eqb c "\" then
            match s' with
            | e :: rest =>
                if Ascii.eqb e "d" then term Digit rest n
                else if syntax_character e || Ascii.eqb e "/"
                then term (Chr e) rest n
                else None
            | [] => None
            end
          else if Ascii.eqb c "." then term AnyChr s' n
          else if one_of "[^$" c then None
          else term (Chr c) s' n
      end
  end
with disjunction (fuel : nat) (s : list ascii) (n : nat)
    : option (regex * list ascii * nat) :=
  match fuel with
  | O => None
  | S fuel =>
      match alternative fuel s n with
      | Some (a, "|"%char :: rest, n) =>
          match disjunction fuel rest n with
          | Some (b, rest, n) => Some (Alt a b, rest, n)
          | None => None
          end
      | r => r
      end
  end.

(** The constructor [std::regex(pattern)]: the pattern has to be a
    Disjunction from its first to its last character, or the constructor
    throws [std::regex_error]. *)
Definition compile (pattern : string) : outcome regex :=
  let s := list_ascii_of_string pattern in
  match disjunction (2 * S (length s)) s 1 with
  | Some (r, [], _) => Returns r
  | _ => Throws regex_error
  end.

(** [std::smatch]: the texts of the groups that took part in the match,
    the whole match as group 0. *)
Definition captures := list (nat * list ascii).

(** What a match that started at [s] and left [rest] has read. *)
Definition consumed (s rest : list ascii) : list ascii :=
  take (length s - length rest) s.

(** The backtracking matcher: [r] at the head of [s], then the
    continuation [k] on what is left; the first success in the order of
    ECMAScript (the first alternative first, a greedy quantifier as often
    as possible first) is the match. *)
Fixpoint run (r : regex) (s : list ascii) (caps : captures)
    (k : list ascii -> captures -> option captures) : option captures :=
  match r with
  | Chr c =>
      match s with
      | c' :: s' => if Ascii.eqb c c' then k s' caps else None
      | [] => None
      end
  | AnyChr =>
      match s with
      | c' :: s' => if one_of (String "010" (String "013" "")) c' then None
                    else k s' caps
      | [] => None
      end
  | Digit =>
      match s with
      | c' :: s' => if is_digit c' then k s' caps else None
      | [] => None
      end
  | Empty => k s caps
  | Seq a b => run a s caps (fun s' caps' => run b s' caps' k)
  | Alt a b =>
      match run a s caps k with
      | Some m => Some m
      | None => run b s caps k
      end
  | Group i a =>
      run a s caps (fun s' caps' => k s' ((i, consumed s s') :: caps'))
  | Rep a lo hi greedy =>
      (fix iterate (fuel lo : nat) (hi : option nat) (s : list ascii)
           (caps : captures) : option captures :=
         match fuel with
         | O => None
         | S fuel =>
             let more :=
               match hi with
               | Some O => None
               | _ =>
                   run a s caps
                     (fun s' caps' =>
                        if (lo =? 0)%nat && (length s' =? length s)%nat
                        then None
                        else iterate fuel (pred lo) (option_map pred hi)
                                     s' caps')
               end in
             let stop := if (lo =? 0)%nat then k s caps else None in
             if greedy
             then match more with Some m => Some m | None => stop end
             else match stop with Some m => Some m | None => more end
         end) (S (length s) + lo)%nat lo hi s caps
  end.

(** [std::regex_search(s, matches, r)]: the match that starts leftmost. *)
Fixpoint regex_search (s : list ascii) (r : regex) : option captures :=
  match run r s [] (fun rest caps => Some ((0%nat, consumed s rest) :: caps))
  with
  | Some matches => Some matches
  | None =>
      match s with
      | [] => None
      | _ :: s' => regex_search s' r
      end
  end.

(** [matches[i].str()] *)
Definition str (matches : captures) (i : nat) : list ascii :=
  match find (fun m => (fst m =? i)%nat) matches with
  | Some m => snd m
  | None => []
  end.

End Regex.

(** The patterns of lines 44 and 45, as the characters of the C++ string
    literals. *)
Definition rgx_pattern : string := "{(-?\d+\.\d+)\/".
Definition rgx2_pattern : string := "{#(-?\d+)\/".

(** [bool extract_fishtest_comment_score(const char* comment, float& Q)]:
    [Returns (Some Q)] when the function returns [true], [Returns None] when
    it returns [false] (and leaves [Q] alone), [Throws e] when it is left by
    an exception.  The two [static std::regex] are constructed when the
    control first passes their declarations, and again at the next call
    when the construction threw; [matches[1].str().at(0)] throws
    [std::out_of_range] on an empty text. *)
Definition extract_fishtest_comment_score `{Libc} (comment : string)
    : outcome (option float) :=
  let s := list_ascii_of_string comment in
  match Regex.compile rgx_pattern with
  | Throws e => Throws e
  | Returns rgx =>
      match Regex.compile rgx2_pattern with
      | Throws e => Throws e
      | Returns rgx2 =>
          match Regex.regex_search s rgx with
          | Some matches =>
              match stof (Regex.str matches 1) with
              | Returns Q => Returns (Some Q)
              | Throws e => Throws e
              end
          | None =>
              match Regex.regex_search s rgx2 with
              | Some matches =>
                  match Regex.str matches 1 with
                  | c :: _ =>
                      Returns (Some (if Ascii.eqb c "-"
                                     then (-128)%float else 128%float))
                  | [] => Throws out_of_range
                  end
              | None => Returns None
              end
          end
      end
  end.

(** ** OutcomeConverter: [convert_sf_score_to_win_probability] *)

(** [return 2 / (1 + exp(-0.4 * score)) - 1;] The product, the call of
    [exp], the sum, the quotient and the difference are in [double]
    ([-0.4] is a [double] literal); the result is converted to [float]. *)
Definition convert_sf_score_to_win_probability `{Libc} (score : float)
    : float :=
  F32.to_single (2 / (1 + exp (-0x1.999999999999ap-2 * score)) - 1)%float.

(** ** The lc0 library *)

Module lczero.

(** Modelled from the spec: [lczero::BoardSquare] and [lczero::Move] are
    declared in the lc0 library, which is not under [src/].  A move has a
    from-square, a to-square, an optional promotion piece and a castling
    flag; mirroring flips both squares vertically (rank [r] becomes rank
    [7 - r], files stay). *)
Record BoardSquare := mkBoardSquare { row : Z; col : Z }.

Inductive Promotion := NoPromotion | Knight | Bishop | Rook | Queen.

Record Move := mkMove {
  from : BoardSquare;
  to : BoardSquare;
  promotion : Promotion;
  castling : bool
}.

(** [lczero::Move m(from, to)] *)
Definition Move_of (f t : BoardSquare) : Move :=
  {| from := f; to := t; promotion := NoPromotion; castling := false |}.

Definition SetPromotion (m : Move) (p : Promotion) : Move :=
  {| from := from m; to := to m; promotion := p; castling := castling m |}.

Definition SetTo (m : Move) (t : BoardSquare) : Move :=
  {| from := from m; to := t; promotion := promotion m;
     castling := castling m |}.

Definition SetCastling (m : Move) : Move :=
  {| from := from m; to := to m; promotion := promotion m;
     castling := true |}.

Definition MirrorSquare (s : BoardSquare) : BoardSquare :=
  {| row := 7 - row s; col := col s |}.

Definition Mirror (m : Move) : Move :=
  {| from := MirrorSquare (from m); to := MirrorSquare (to m);
     promotion := promotion m; castling := castling m |}.

Inductive GameResult := WHITE_WON | BLACK_WON | DRAW.

(** [lczero::Position::WE_CAN_OOO] and its siblings. *)
Inductive Castling := WE_CAN_OOO | WE_CAN_OO | THEY_CAN_OOO | THEY_CAN_OO.

(** [lczero::V4TrainingData].  [probabilities] holds the bit patterns of
    its [float] cells. *)
Record V4TrainingData := mkV4TrainingData {
  version : Z;
  probabilities : list Z;
  planes : list Z;
  castling_us_ooo : Z;
  castling_us_oo : Z;
  castling_them_ooo : Z;
  castling_them_oo : Z;
  side_to_move : Z;
  move_count : Z;
  rule50_count : Z;
  result : Z;
  root_q : float;
  best_q : float;
  root_d : float;
  best_d : float
}.

(** [lczero::TrainingDataWriter]: the game id and the directory it was
    opened with (the directory is ["supervised-" + std::to_string(dir)]),
    the chunks written so far, and whether [Finalize] was called. *)
Record TrainingDataWriter := mkWriter {
  writer_game_id : Z;
  writer_dir : Z;
  chunks : list V4TrainingData;
  finalized : bool
}.

Definition new_TrainingDataWriter (game_id dir : Z) : TrainingDataWriter :=
  {| writer_game_id := game_id; writer_dir := dir; chunks := [];
     finalized := false |}.

Definition WriteChunk (w : TrainingDataWriter) (c : V4TrainingData)
    : TrainingDataWriter :=
  {| writer_game_id := writer_game_id w; writer_dir := writer_dir w;
     chunks := chunks w ++ [c]; finalized := finalized w |}.

Definition Finalize (w : TrainingDataWriter) : TrainingDataWriter :=
  {| writer_game_id := writer_game_id w; writer_dir := writer_dir w;
     chunks := chunks w; finalized := true |}.

End lczero.

Import lczero.

(** What the tool calls of lc0 on a [lczero::PositionHistory]; the
    position-level calls read [history.Last()]. *)
Class Lc0 := {
  PositionHistory : Type;
  (** [starting_board.SetFromFen(fen, nullptr, nullptr)] followed by
      [position_history.Reset(starting_board, 0, 0)] *)
  Reset : string -> PositionHistory;
  IsBlackToMove : PositionHistory -> bool;
  CanCastle : PositionHistory -> Castling -> bool;
  GetNoCaptureNoPawnPly : PositionHistory -> Z;
  (** [Last().GetBoard().GenerateLegalMoves()] *)
  GenerateLegalMoves : PositionHistory -> list Move;
  Append : PositionHistory -> Move -> PositionHistory;
  (** the masks of [EncodePositionForNN(history, 8, FEN_ONLY)] *)
  EncodePositionForNN : PositionHistory -> list Z;
  (** [Move::as_nn_index()] and [Move::operator==] *)
  as_nn_index : Move -> nat;
  Move_eqb : Move -> Move -> bool;
  (** [ChessBoard::kStartposFen] and the lengths of
      [V4TrainingData::probabilities] and [V4TrainingData::planes] *)
  kStartposFen : string;
  probabilities_size : nat;
  planes_size : nat
}.

(** ** The polyglot library *)

(** What the tool calls of polyglot; a [move_t] is an [int]. *)
Class Polyglot := {
  board_t : Type;
  board_from_fen : string -> board_t;
  turn : board_t -> Z;
  colour_is_black : Z -> bool;
  MoveNone : Z;
  move_from_san : string -> board_t -> Z;
  move_to_san : Z -> board_t -> string;
  move_is_legal : Z -> board_t -> bool;
  move_is_mate : Z -> board_t -> bool;
  move_is_promote : Z -> bool;
  move_is_castle : Z -> board_t -> bool;
  move_from : Z -> Z;
  move_to : Z -> Z;
  square_rank : Z -> Z;
  square_file : Z -> Z;
  move_do : board_t -> Z -> board_t
}.

(** ** MoveTranslator: [poly_move_to_lc0_move] *)

(** The table [lookup[5]] read at [i]; polyglot's promotion moves carry a
    piece code from 1 to 4 in [move >> 12], and the model reads
    [NoPromotion] for an index outside the table. *)
Definition lookup (i : Z) : Promotion :=
  nth (Z.to_nat i) [NoPromotion; Knight; Bishop; Rook; Queen] NoPromotion.

Definition poly_move_to_lc0_move `{Polyglot} (move : Z) (board : board_t)
    : Move :=
  let from := mkBoardSquare (square_rank (move_from move))
                            (square_file (move_from move)) in
  let to := mkBoardSquare (square_rank (move_to move))
                          (square_file (move_to move)) in
  let m := Move_of from to in
  let m :=
    if move_is_promote move then
      let prom := lookup (Z.shiftr move 12) in
      SetPromotion m prom
    else if move_is_castle move board then
      let is_short_castle :=
        square_file (move_from move) <? square_file (move_to move) in
      let file_to := if is_short_castle then 6 else 2 in
      SetCastling
        (SetTo m (mkBoardSquare (square_rank (move_to move)) file_to))
    else m in
  if colour_is_black (turn board) then Mirror m else m.

(** ** TrainingRecordAssembler: [get_v4_training_data] *)

Definition u64 (v : Z) : Z := v mod 2 ^ 64.

Definition resever_bits_in_bytes (v : Z) : Z :=
  let v := Z.lor (Z.land (Z.shiftr v 1) 0x5555555555555555)
                 (u64 (Z.shiftl (Z.land v 0x5555555555555555) 1)) in
  let v := Z.lor (Z.land (Z.shiftr v 2) 0x3333333333333333)
                 (u64 (Z.shiftl (Z.land v 0x3333333333333333) 2)) in
  let v := Z.lor (Z.land (Z.shiftr v 4) 0x0F0F0F0F0F0F0F0F)
                 (u64 (Z.shiftl (Z.land v 0x0F0F0F0F0F0F0F0F) 4)) in
  v.

(** Lines 99-108: the [memset], the loop over [legal_moves] and the store
    for [played_move].  A store writes the pattern of the value converted
    to [float]; an index is below [probabilities_size] for every move lc0
    produces. *)
Definition fill_probabilities `{Lc0} (played_move : Move)
    (legal_moves : list Move) : list Z :=
  let probabilities :=
    F32.memset (F32.to_int (-1)%float) probabilities_size in
  let probabilities :=
    fold_left (fun p move => <[as_nn_index move := F32.of_float 0%float]> p)
              legal_moves probabilities in
  <[as_nn_index played_move := F32.of_float 1%float]> probabilities.

Definition bool_to_Z (b : bool) : Z := if b then 1 else 0.

Definition get_v4_training_data `{Lc0} (game_result : GameResult)
    (history : PositionHistory) (played_move : Move)
    (legal_moves : list Move) (Q : float) : V4TrainingData :=
  let black := IsBlackToMove history in
  let '(res, d) :=
    match game_result with
    | WHITE_WON => (if black then -1 else 1, 0%float)
    | BLACK_WON => (if black then 1 else -1, 0%float)
    | DRAW => (0, 1%float)
    end in
  let q := if black then (- Q)%float else Q in
  {| version := 4;
     probabilities := fill_probabilities played_move legal_moves;
     planes := map resever_bits_in_bytes
                   (take planes_size (EncodePositionForNN history));
     castling_us_ooo := bool_to_Z (CanCastle history WE_CAN_OOO);
     castling_us_oo := bool_to_Z (CanCastle history WE_CAN_OO);
     castling_them_ooo := bool_to_Z (CanCastle history THEY_CAN_OOO);
     castling_them_oo := bool_to_Z (CanCastle history THEY_CAN_OO);
     side_to_move := bool_to_Z black;
     move_count := 0;
     rule50_count := GetNoCaptureNoPawnPly history mod 256;
     result := res;
     root_q := q;
     best_q := q;
     root_d := d;
     best_d := d |}.

(** ** GameProcessor: [write_one_game_training_data] *)

Record Options := mkOptions { verbose : bool; fishtest_mode : bool }.

(** Modelled from the spec: polyglot's PGN reader ([pgn.h]) is not under
    [src/].  A game is a starting position (empty when the game gives
    none), a result and a sequence of move tokens; [pgn_next_move] hands out
    the next token with its text, its trailing comment and its annotation
    glyph (both empty when absent), and returns [false] at the end of the
    game. *)
Record pgn_move := mkPgnMove {
  move_text : string;
  last_read_comment : string;
  last_read_nag : string
}.

Record pgn_t := mkPgn {
  fen : string;
  pgn_result : string;
  moves : list pgn_move
}.

(** Lines 158-170: the FEN is read as four blank-separated fields from a
    [std::istringstream]; [eof()] holds afterwards when one of the reads
    ran into the end of the text. *)
Definition isspace (c : ascii) : bool :=
  let n := nat_of_ascii c in (n =? 32)%nat || ((9 <=? n)%nat && (n <=? 13)%nat).

Fixpoint skip_blanks (s : list ascii) : list ascii :=
  match s with
  | c :: s' => if isspace c then skip_blanks s' else s
  | [] => []
  end.

Fixpoint skip_field (s : list ascii) : list ascii :=
  match s with
  | c :: s' => if isspace c then s else skip_field s'
  | [] => []
  end.

(** [fen_str >> field]: what is left of the stream, nothing when the read
    reached its end. *)
Definition read_field (s : list ascii) : list ascii :=
  skip_field (skip_blanks s).

Definition eof_after_four_fields (s : string) : bool :=
  match read_field (read_field (read_field (read_field
          (list_ascii_of_string s)))) with
  | [] => true
  | _ :: _ => false
  end.

Definition starting_fen `{Lc0} (pgn : pgn_t) : string :=
  let starting_fen :=
    if (0 <? Z.of_nat (String.length (fen pgn))) then fen pgn
    else kStartposFen in
  if eof_after_four_fields starting_fen
  then (starting_fen ++ " 0 0")%string
  else starting_fen.

(** Lines 190-196. *)
Definition game_result_of (pgn : pgn_t) : GameResult :=
  if String.eqb (pgn_result pgn) "1-0" then WHITE_WON
  else if String.eqb (pgn_result pgn) "0-1" then BLACK_WON
  else DRAW.

(** [text[0]] is not the terminating zero. *)
Definition nonempty (text : string) : bool :=
  match text with
  | EmptyString => false
  | String _ _ => true
  end.

(** Lines 216-225. *)
Definition bad_move_of (nag : string) : bool :=
  match nag with
  | EmptyString => false
  | String c _ =>
      Ascii.eqb c "2" || Ascii.eqb c "4" || Ascii.eqb c "5" || Ascii.eqb c "6"
  end.

(** What the loop prints on its two diagnostic paths. *)
Inductive diagnostic :=
| IllegalMove (str : string)
| MoveNotFound (str : string) (game_id : Z) (file_to : Z).

(** The variables the move loop reads and writes. *)
Record loop_state `{Lc0} `{Polyglot} := mkLoopState {
  board : board_t;
  position_history : PositionHistory;
  writer : option TrainingDataWriter;
  game_id : Z;
  printed : list diagnostic
}.

(** How one pass through the body of the loop ends: at the end of the body
    ([Continue]), at a [break] ([Break]), in [writer->WriteChunk(chunk)]
    with [writer == nullptr] ([NullWriter]), in an exception that nothing
    catches ([Uncaught]), or in the division by zero of line 246
    ([DivisionByZero]). *)
Inductive body_result `{Lc0} `{Polyglot} :=
| Continue (st : loop_state)
| Break (st : loop_state)
| NullWriter (st : loop_state)
| Uncaught (e : exception) (st : loop_state)
| DivisionByZero (st : loop_state).

(** Lines 228-252, the score of the move: [ScoreBreak] for the two
    [break]s, [NoScore] when the move has no comment and the loop goes on
    with [Q = 0.0f], [Score s] when [fishtest_score] is set to [s],
    [ScoreThrows e] when [extract_fishtest_comment_score] throws. *)
Inductive score_result :=
| ScoreBreak
| NoScore
| Score (fishtest_score : float)
| ScoreThrows (e : exception).

Definition fishtest_score_of `{Libc} (options : Options) (comment : string)
    (is_mate : bool) (black_to_move : bool) : score_result :=
  if nonempty comment then
    if is_mate then
      Score (if black_to_move then (-128)%float else 128%float)
    else
      match extract_fishtest_comment_score comment with
      | Returns (Some fishtest_score) => Score fishtest_score
      | Returns None => ScoreBreak
      | Throws e => ScoreThrows e
      end
  else if fishtest_mode options then ScoreBreak
  else NoScore.

(** Lines 257-264. *)
Definition found_in `{Lc0} (legal_moves : list Move) (lc0_move : Move)
    : bool :=
  existsb (fun legal => Move_eqb legal lc0_move
                        && Bool.eqb (castling legal) (castling lc0_move))
          legal_moves.

(** The value of [Q] after lines 228-252. *)
Definition Q_of `{Libc} (score : score_result) : float :=
  match score with
  | Score fishtest_score => convert_sf_score_to_win_probability fishtest_score
  | _ => 0%float
  end.

(** [game_id / max_games_per_directory] of line 246, a division of
    [size_t]: nothing when the divisor is [0], where the program is killed
    by the arithmetic fault. *)
Definition directory_of (max_games_per_directory game_id : Z) : option Z :=
  if max_games_per_directory =? 0 then None
  else Some (game_id / max_games_per_directory).

(** Lines 242-248: [writer] and [game_id] after the score was read;
    nothing when the division faults. *)
Definition init_writer (max_games_per_directory : Z) (score : score_result)
    (writer : option TrainingDataWriter) (game_id : Z)
    : option (option TrainingDataWriter * Z) :=
  match score, writer with
  | Score _, None =>
      match directory_of max_games_per_directory game_id with
      | Some dir =>
          Some (Some (new_TrainingDataWriter game_id dir), game_id + 1)
      | None => None
      end
  | _, w => Some (w, game_id)
  end.

Section GameProcessor.

Context `{Libc} `{Lc0} `{Polyglot}.

(** The global [max_games_per_directory]. *)
Variable max_games_per_directory : Z.
Variable options : Options.
Variable game_result : GameResult.

(** The body of [while (pgn_next_move(pgn, str, 256))], lines 199-279,
    for the token [tok]. *)
Definition loop_body (st : loop_state) (tok : pgn_move) : body_result :=
  let str := move_text tok in
  (* Extract move from pgn *)
  let move := move_from_san str (board st) in
  if (move =? MoveNone) || negb (move_is_legal move (board st)) then
    Break {| board := board st; position_history := position_history st;
             writer := writer st; game_id := game_id st;
             printed := printed st ++ [IllegalMove str] |}
  else
    let str := if verbose options then move_to_san move (board st)
               else str in
    let bad_move := bad_move_of (last_read_nag tok) in
    (* Extract SF scores and convert to win probability *)
    match fishtest_score_of options (last_read_comment tok)
            (move_is_mate move (board st))
            (IsBlackToMove (position_history st)) with
    | ScoreBreak => Break st
    | ScoreThrows e => Uncaught e st
    | score =>
        let Q := Q_of score in
        (* Since there is at least one move to write, initialize the
           writer *)
        match init_writer max_games_per_directory score (writer st)
                          (game_id st) with
        | None => DivisionByZero st
        | Some (writer, game_id) =>
            (* Convert move to lc0 format *)
            let lc0_move := poly_move_to_lc0_move move (board st) in
            let legal_moves := GenerateLegalMoves (position_history st) in
            let found := found_in legal_moves lc0_move in
            let printed :=
              if found then printed st
              else printed st
                   ++ [MoveNotFound str game_id (square_file (move_to move))] in
            (* Execute move *)
            let next (writer : option TrainingDataWriter) :=
              {| board := move_do (board st) move;
                 position_history := Append (position_history st) lc0_move;
                 writer := writer; game_id := game_id; printed := printed |} in
            if negb bad_move then
              (* Generate training data *)
              let chunk :=
                get_v4_training_data game_result (position_history st)
                                     lc0_move legal_moves Q in
              match writer with
              | Some w => Continue (next (Some (WriteChunk w chunk)))
              | None =>
                  NullWriter {| board := board st;
                                position_history := position_history st;
                                writer := None; game_id := game_id;
                                printed := printed |}
              end
            else Continue (next writer)
        end
    end.

(** The loop over the tokens of the game. *)
Fixpoint move_loop (st : loop_state) (toks : list pgn_move)
    : body_result :=
  match toks with
  | [] => Continue st
  | tok :: toks' =>
      match loop_body st tok with
      | Continue st' => move_loop st' toks'
      | stopped => stopped
      end
  end.

End GameProcessor.

(** How a call of [write_one_game_training_data] ends: it returns
    [writer] converted to [bool], having finalized the writer if there is
    one ([Returned]); it stops in the null dereference ([Crashed]); it is
    left by an exception, which nothing in the tool catches, so that the
    program ends in [std::terminate] ([Terminated]); or the program is
    killed in the division by zero ([Killed]). *)
Inductive game_outcome :=
| Returned (game_written : bool) (shard : option TrainingDataWriter)
           (out : list diagnostic)
| Crashed (out : list diagnostic)
| Terminated (e : exception) (out : list diagnostic)
| Killed (out : list diagnostic).

Definition write_one_game_training_data `{Libc} `{Lc0} `{Polyglot}
    (max_games_per_directory : Z) (pgn : pgn_t) (game_id : Z)
    (options : Options) : game_outcome :=
  let starting_fen := starting_fen pgn in
  let st :=
    {| board := board_from_fen starting_fen;
       position_history := Reset starting_fen;
       writer := None; game_id := game_id; printed := [] |} in
  let game_result := game_result_of pgn in
  match move_loop max_games_per_directory options game_result st (moves pgn)
  with
  | NullWriter st' => Crashed (printed st')
  | Uncaught e st' => Terminated e (printed st')
  | DivisionByZero st' => Killed (printed st')
  | Continue st' | Break st' =>
      match writer st' with
      | Some w => Returned true (Some (Finalize w)) (printed st')
      | None => Returned false None (printed st')
      end
  end.

(** ** [main]: the game counter *)

(** What [main] has done when it stops: the value of [game_id], the
    shards of the games written, in order, and whether it stopped in a
    game whose call did not return. *)
Record main_state := mkMainState {
  main_game_id : Z;
  shards : list TrainingDataWriter;
  crashed : bool
}.

Section Main.

Context `{Libc} `{Lc0} `{Polyglot}.

Variable max_games_per_directory : Z.
Variable max_games_to_convert : Z.
Variable options : Options.

(** [while (pgn_next_game(pgn) && game_id < max_games_to_convert)] over
    the games of one file. *)
Fixpoint convert_file (games : list pgn_t) (st : main_state) : main_state :=
  match games with
  | [] => st
  | pgn :: games' =>
      if crashed st then st
      else if main_game_id st <? max_games_to_convert then
        match write_one_game_training_data max_games_per_directory pgn
                (main_game_id st) options with
        | Returned game_written shard _ =>
            convert_file games'
              {| main_game_id :=
                   if game_written then main_game_id st + 1
                   else main_game_id st;
                 shards :=
                   match shard with
                   | Some w => shards st ++ [w]
                   | None => shards st
                   end;
                 crashed := false |}
        | Crashed _ | Terminated _ _ | Killed _ =>
            {| main_game_id := main_game_id st; shards := shards st;
               crashed := true |}
        end
      else st
  end.

(** The loop over the input files that exist, from [game_id = 0]. *)
Definition main (files : list (list pgn_t)) : main_state :=
  fold_left (fun st games => convert_file games st) files
            {| main_game_id := 0; shards := []; crashed := false |}.

End Main.

(** ** [main]: the command line *)

(** The variables the first loop of [main] sets: [options] and the globals
    [max_games_per_directory] and [max_games_to_convert]. *)
Record settings := mkSettings {
  options_of : Options;
  games_per_directory : Z;
  games_to_convert : Z
}.

(** Lines 22-28: the initial values. *)
Definition default_settings : settings :=
  {| options_of := {| verbose := false; fishtest_mode := false |};
     games_per_directory := 10000;
     games_to_convert := 10000000 |}.

Section CommandLine.

(** [std::atoi], an [int]; the two globals it is assigned to are
    [size_t]. *)
Variable atoi : string -> Z.

(** Lines 302-321, for the words [argv[idx]], [argv[idx + 1]], ... of the
    command line.  Every word is examined, the program name and the values
    of the two numeric options included; [None] stands for [std::atoi]
    called with [argv[argc]], the null pointer that ends [argv]. *)
Fixpoint parse_arguments (argv : list string) (s : settings)
    : option settings :=
  match argv with
  | [] => Some s
  | arg :: argv' =>
      if String.eqb "-v" arg then
        parse_arguments argv'
          {| options_of := {| verbose := true;
                              fishtest_mode := fishtest_mode (options_of s) |};
             games_per_directory := games_per_directory s;
             games_to_convert := games_to_convert s |}
      else if String.eqb "-fishtest-mode" arg then
        parse_arguments argv'
          {| options_of := {| verbose := verbose (options_of s);
                              fishtest_mode := true |};
             games_per_directory := games_per_directory s;
             games_to_convert := games_to_convert s |}
      else if String.eqb "-games-per-dir" arg then
        match argv' with
        | value :: _ =>
            parse_arguments argv'
              {| options_of := options_of s;
                 games_per_directory := u64 (atoi value);
                 games_to_convert := games_to_convert s |}
        | [] => None
        end
      else if String.eqb "-max-games-to-convert" arg then
        match argv' with
        | value :: _ =>
            parse_arguments argv'
              {| options_of := options_of s;
                 games_per_directory := games_per_directory s;
                 games_to_convert := u64 (atoi value) |}
        | [] => None
        end
      else parse_arguments argv' s
  end.

Context `{Libc} `{Lc0} `{Polyglot}.

(** [file_exists] (lines 30-33) followed by polyglot's [pgn_open] and
    [pgn_next_game]: the games of the file of a given name, [None] when no
    such file can be opened. *)
Variable games_of_file : string -> option (list pgn_t).

(** [main]: the command line is scanned, then every word after the program
    name that names an existing file is converted (lines 322-334). *)
Definition trainingdata_tool (argv : list string) : option main_state :=
  match parse_arguments argv default_settings with
  | Some s =>
      Some (main (games_per_directory s) (games_to_convert s) (options_of s)
                 (omap games_of_file (tail argv)))
  | None => None
  end.

End CommandLine.

(** ** A concrete environment

    Instances of the three interfaces on which the definitions above can be
    run: an [exp] by argument reduction and a Taylor polynomial, a decimal
    [stof], a polyglot with 64 squares ([a1 = 0], file [sq & 7], rank
    [sq >> 3]) and moves [from << 6 | to] that knows a handful of SAN
    tokens, and an lc0 whose history is the side to move and the number of
    plies played. *)

Module Sample.

Definition float_of_Z (z : Z) : float :=
  match z with
  | Zneg p => (- of_uint63 (Uint63.of_Z (Zpos p)))%float
  | _ => of_uint63 (Uint63.of_Z z)
  end.

Definition nearest (x : float) : Z :=
  F32.to_int (x + (if (x <? 0)%float then -0.5 else 0.5))%float.

Fixpoint taylor (n : nat) (k : Z) (r acc : float) : float :=
  match n with
  | O => acc
  | S n' => taylor n' (k - 1) r (1 + r * acc / float_of_Z k)%float
  end.

Definition exp_taylor (x : float) : float :=
  if (x <? -746)%float then 0%float
  else if (710 <? x)%float then infinity
  else
    let k := nearest (x * 0x1.71547652b82fep+0)%float in
    let r := (x - float_of_Z k * 0x1.62e42fefa39efp-1)%float in
    Z.ldexp (taylor 18 18 r 1) k.

Definition digit_value (c : ascii) : Z := Z.of_nat (nat_of_ascii c) - 48.

Definition number (ds : list ascii) : Z :=
  fold_left (fun n c => 10 * n + digit_value c) ds 0.

(** The digits at the head of [s] and what follows them. *)
Fixpoint span_digits (s : list ascii) : list ascii * list ascii :=
  match s with
  | c :: s' =>
      if Regex.is_digit c then
        let '(d, r) := span_digits s' in (c :: d, r)
      else ([], s)
  | [] => ([], [])
  end.

(** The double nearest to an integer. *)
Definition nearest_double (z : Z) : float :=
  SF2Prim (binary_normalize 53 1024 z 0 false).

(** A sample [std::stof] on an optional minus sign, digits, a point and
    digits: [std::out_of_range] from [2^128] on, the [float] nearest to the
    quotient of the two integers below. *)
Definition stof_decimal (g : list ascii) : outcome float :=
  let '(negative, g1) :=
    match g with
    | "-"%char :: g' => (true, g')
    | _ => (false, g)
    end in
  let '(ip, g2) := span_digits g1 in
  let fp := fst (span_digits (tail g2)) in
  let scale := 10 ^ Z.of_nat (length fp) in
  let n := number ip * scale + number fp in
  if 2 ^ 128 * scale <=? n then Throws out_of_range
  else
    let v := (nearest_double n / nearest_double scale)%float in
    Returns (F32.to_single (if negative then (- v)%float else v)).

#[export] Instance libc : Libc := {| exp := exp_taylor; stof := stof_decimal |}.

(** Squares and moves. *)
Definition sq (file rank : Z) : Z := Z.lor (Z.shiftl rank 3) file.
Definition mv (from to : Z) : Z := Z.lor (Z.shiftl from 6) to.

Definition e2e4 : Z := mv (sq 4 1) (sq 4 3).
Definition e7e5 : Z := mv (sq 4 6) (sq 4 4).
Definition g1f3 : Z := mv (sq 6 0) (sq 5 2).
Definition b8c6 : Z := mv (sq 1 7) (sq 2 5).
Definition e1h1 : Z := mv (sq 4 0) (sq 7 0).
Definition e8h8 : Z := mv (sq 4 7) (sq 7 7).
Definition h5f7 : Z := mv (sq 7 4) (sq 5 6).
Definition d8h4 : Z := mv (sq 3 7) (sq 7 3).

(** The board is the colour to move: 0 for White, 1 for Black. *)
Definition san_decode (str : string) (board : Z) : Z :=
  if String.eqb str "e4" then e2e4
  else if String.eqb str "e5" then e7e5
  else if String.eqb str "Nf3" then g1f3
  else if String.eqb str "Nc6" then b8c6
  else if String.eqb str "O-O" then (if board =? 1 then e8h8 else e1h1)
  else if String.eqb str "Qxf7#" then h5f7
  else if String.eqb str "Qh4#" then d8h4
  else 0.

Definition san_encode (move : Z) (board : Z) : string :=
  if move =? e2e4 then "e4"
  else if move =? e7e5 then "e5"
  else if move =? g1f3 then "Nf3"
  else if move =? b8c6 then "Nc6"
  else if (move =? e1h1) || (move =? e8h8) then "O-O"
  else if move =? h5f7 then "Qxf7#"
  else if move =? d8h4 then "Qh4#"
  else "".

(** The second field of a FEN is ["b"] when Black is to move. *)
Definition fen_black (fen : string) : bool :=
  match skip_blanks (read_field (list_ascii_of_string fen)) with
  | "b"%char :: _ => true
  | _ => false
  end.

#[export] Instance polyglot : Polyglot := {|
  board_t := Z;
  board_from_fen := fun fen => if fen_black fen then 1 else 0;
  turn := fun board => board;
  colour_is_black := fun c => c =? 1;
  MoveNone := 0;
  move_from_san := san_decode;
  move_to_san := san_encode;
  move_is_legal := fun _ _ => true;
  move_is_mate := fun move _ => (move =? h5f7) || (move =? d8h4);
  move_is_promote := fun move => negb (Z.shiftr move 12 =? 0);
  move_is_castle := fun move _ => (move =? e1h1) || (move =? e8h8);
  move_from := fun move => Z.land (Z.shiftr move 6) 63;
  move_to := fun move => Z.land move 63;
  square_rank := fun s => Z.shiftr s 3;
  square_file := fun s => Z.land s 7;
  move_do := fun board _ => 1 - board
|}.

Definition square_eqb (a b : BoardSquare) : bool :=
  (row a =? row b) && (col a =? col b).

Definition promotion_eqb (a b : Promotion) : bool :=
  match a, b with
  | NoPromotion, NoPromotion | Knight, Knight | Bishop, Bishop
  | Rook, Rook | Queen, Queen => true
  | _, _ => false
  end.

Definition square_index (s : BoardSquare) : Z := row s * 8 + col s.

(** The moves lc0 generates, from the mover's side of the board: the
    pawn push, the knight move and the short castle. *)
Definition legal_moves : list Move :=
  [ Move_of (mkBoardSquare 1 4) (mkBoardSquare 3 4);
    Move_of (mkBoardSquare 0 6) (mkBoardSquare 2 5);
    SetCastling (Move_of (mkBoardSquare 0 4) (mkBoardSquare 0 6)) ].

#[export] Instance lc0 : Lc0 := {|
  PositionHistory := bool * Z;
  Reset := fun fen => (fen_black fen, 0);
  IsBlackToMove := fun h => fst h;
  CanCastle := fun _ _ => true;
  GetNoCaptureNoPawnPly := fun h => snd h;
  GenerateLegalMoves := fun _ => legal_moves;
  Append := fun h _ => (negb (fst h), snd h + 1);
  EncodePositionForNN := fun h => replicate 112 (0x00FF00000000FF01 + snd h);
  as_nn_index := fun m =>
    Z.to_nat ((square_index (from m) * 64 + square_index (to m)) mod 1858);
  Move_eqb := fun a b =>
    square_eqb (from a) (from b) && square_eqb (to a) (to b)
    && promotion_eqb (promotion a) (promotion b);
  kStartposFen := "rnbqkbnr/pppppppp/8/8/8/8/PPPPPPPP/RNBQKBNR w KQkq - 0 1";
  probabilities_size := 1858;
  planes_size := 104
|}.

Definition options : Options := {| verbose := false; fishtest_mode := false |}.
Definition strict : Options := {| verbose := false; fishtest_mode := true |}.

Definition token (str comment nag : string) : pgn_move :=
  {| move_text := str; last_read_comment := comment; last_read_nag := nag |}.

Definition game (result : string) (moves : list pgn_move) : pgn_t :=
  {| fen := ""; pgn_result := result; moves := moves |}.

(** A game from a position: White to move, with the queen on h5, the
    bishop on c4 and the mate on f7 at hand; and Black to move, with the
    mate on h4 at hand. *)
Definition white_mates : string :=
  "r1bqkb1r/pppp1ppp/2n2n2/4p2Q/2B1P3/8/PPPP1PPP/RNB1K1NR w KQkq - 4 4".

Definition black_mates : string :=
  "rnbqkbnr/pppp1ppp/8/4p3/6P1/5P2/PPPPP2P/RNBQKBNR b KQkq g3 0 2".

Definition game_from (fen result : string) (moves : list pgn_move) : pgn_t :=
  {| fen := fen; pgn_result := result; moves := moves |}.

(** States of the move loop: at the start of a game from the initial
    position; after a first move that was written; with White to move at
    ply 6 and the writer open. *)
Definition start : loop_state :=
  {| board := 0; position_history := (false, 0); writer := None;
     game_id := 0; printed := [] |}.

Definition opened : loop_state :=
  {| board := 1; position_history := (true, 1);
     writer := Some (new_TrainingDataWriter 0 0);
     game_id := 1; printed := [] |}.

Definition middle : loop_state :=
  {| board := 0; position_history := (false, 6);
     writer := Some (new_TrainingDataWriter 0 0);
     game_id := 1; printed := [] |}.

End Sample.

(** A sample [std::atoi]: blanks, an optional sign, decimal digits. *)
Fixpoint digits_value (acc : Z) (s : list ascii) : Z :=
  match s with
  | c :: s' =>
      if Regex.is_digit c
      then digits_value (10 * acc + Sample.digit_value c) s'
      else acc
  | [] => acc
  end.

Definition atoi_decimal (text : string) : Z :=
  match skip_blanks (list_ascii_of_string text) with
  | "-"%char :: s => - digits_value 0 s
  | "+"%char :: s => digits_value 0 s
  | s => digits_value 0 s
  end.

(** The result label the specification gives a record: [+1] when the
    game's result favours the side to move in the stored position, [-1]
    when it favours the opponent, [0] for a draw; and the draw confidence:
    [1.0] for a draw, [0.0] for a decisive result. *)
Definition result_label (game_result : GameResult) (side_to_move : Z) : Z :=
  match game_result with
  | DRAW => 0
  | WHITE_WON => if side_to_move =? 0 then 1 else -1
  | BLACK_WON => if side_to_move =? 1 then 1 else -1
  end.

Definition draw_confidence (game_result : GameResult) : float :=
  match game_result with
  | DRAW => 1%float
  | _ => 0%float
  end.

(** ** The parts of a pass through the loop body

    Names for the values the body of the move loop computes from the state
    [st] it starts in and the token [tok] it reads. *)

Section Pass.

Context `{Libc} `{Lc0} `{Polyglot}.

Variable max_games_per_directory : Z.
Variable options : Options.
Variable game_result : GameResult.

(** [move] *)
Definition move_of (st : loop_state) (tok : pgn_move) : Z :=
  move_from_san (move_text tok) (board st).

(** The move passes the test of line 201. *)
Definition accepted (st : loop_state) (tok : pgn_move) : bool :=
  negb ((move_of st tok =? MoveNone)
        || negb (move_is_legal (move_of st tok) (board st))).

Definition score_of (st : loop_state) (tok : pgn_move) : score_result :=
  fishtest_score_of options (last_read_comment tok)
    (move_is_mate (move_of st tok) (board st))
    (IsBlackToMove (position_history st)).

(** [writer] and [game_id] after line 252; those of [st] when the division
    of line 246 faults and the pass does not get there. *)
Definition writer_of (st : loop_state) (tok : pgn_move)
    : option TrainingDataWriter :=
  match init_writer max_games_per_directory (score_of st tok) (writer st)
          (game_id st) with
  | Some (writer, _) => writer
  | None => writer st
  end.

Definition game_id_of (st : loop_state) (tok : pgn_move) : Z :=
  match init_writer max_games_per_directory (score_of st tok) (writer st)
          (game_id st) with
  | Some (_, game_id) => game_id
  | None => game_id st
  end.

(** [lc0_move], [found] and [chunk] *)
Definition lc0_move_of (st : loop_state) (tok : pgn_move) : Move :=
  poly_move_to_lc0_move (move_of st tok) (board st).

Definition found_of (st : loop_state) (tok : pgn_move) : bool :=
  found_in (GenerateLegalMoves (position_history st)) (lc0_move_of st tok).

Definition chunk_of (st : loop_state) (tok : pgn_move) : V4TrainingData :=
  get_v4_training_data game_result (position_history st)
    (lc0_move_of st tok) (GenerateLegalMoves (position_history st))
    (Q_of (score_of st tok)).

(** [str] after line 214, and the line printed when the move is not
    found. *)
Definition str_of (st : loop_state) (tok : pgn_move) : string :=
  if verbose options then move_to_san (move_of st tok) (board st)
  else move_text tok.

Definition not_found_line (st : loop_state) (tok : pgn_move) : diagnostic :=
  MoveNotFound (str_of st tok) (game_id_of st tok)
               (square_file (move_to (move_of st tok))).

(** The lines printed by the end of a pass that reaches the lookup. *)
Definition printed_of (st : loop_state) (tok : pgn_move) : list diagnostic :=
  if found_of st tok then printed st
  else printed st ++ [not_found_line st tok].

(** The state at the end of a pass that executes the move, with [w] as
    the writer and [out] as the lines printed so far. *)
Definition next_state (st : loop_state) (tok : pgn_move)
    (w : option TrainingDataWriter) (out : list diagnostic) : loop_state :=
  {| board := move_do (board st) (move_of st tok);
     position_history := Append (position_history st) (lc0_move_of st tok);
     writer := w;
     game_id := game_id_of st tok;
     printed := out |}.

(** The writer of a state is none, or was opened under [gid] while the
    state's game id moved on to [gid + 1]. *)
Definition opened_under (gid : Z) (st : loop_state) : Prop :=
  match writer st with
  | None => game_id st = gid
  | Some w =>
      game_id st = gid + 1
      /\ writer_game_id w = gid
      /\ writer_dir w = gid / max_games_per_directory
      /\ finalized w = false
  end.

End Pass.

(** The from-square and the to-square of a polyglot move, as lc0 squares. *)
Definition from_square `{Polyglot} (move : Z) : BoardSquare :=
  mkBoardSquare (square_rank (move_from move)) (square_file (move_from move)).

Definition to_square `{Polyglot} (move : Z) : BoardSquare :=
  mkBoardSquare (square_rank (move_to move)) (square_file (move_to move)).

(** A record carries the label and the draw confidence of its game. *)
Definition labelled (game_result : GameResult) (c : V4TrainingData) : Prop :=
  result c = result_label game_result (side_to_move c)
  /\ root_d c = draw_confidence game_result
  /\ best_d c = draw_confidence game_result.

(** The chunks of the writer of a loop state, none without a writer. *)
Definition written `{Lc0} `{Polyglot} (st : loop_state) : list V4TrainingData :=
  match writer st with
  | Some w => chunks w
  | None => []
  end.

(** The shards of [main] are numbered in order: the next game id is their
    number, and the [n]-th of them (from 0) was opened under the game id
    [n] in the directory [n / max_games_per_directory]. *)
Definition numbered (max_games_per_directory : Z) (st : main_state) : Prop :=
  main_game_id st = Z.of_nat (length (shards st))
  /\ forall (n : nat) w,
       shards st !! n = Some w ->
       writer_game_id w = Z.of_nat n
       /\ writer_dir w = Z.of_nat n / max_games_per_directory.

(** The state in which [write_one_game_training_data] enters the move
    loop. *)
Definition initial_state `{Lc0} `{Polyglot} (pgn : pgn_t) (game_id : Z)
    : loop_state :=
  {| board := board_from_fen (starting_fen pgn);
     position_history := Reset (starting_fen pgn);
     writer := None; game_id := game_id; printed := [] |}.

(** The label of a record in the words of the specification.  The final
    result of a game favours White when the result of the PGN is ["1-0"],
    Black when it is ["0-1"], and nobody otherwise; the label is [+1] when
    it favours the player to move in the stored position, [-1] when it
    favours the other player and [0] when it favours nobody; the draw
    confidence is [0.0] when the result favours a player and [1.0] when it
    favours nobody. *)
Inductive player := White | Black.

Definition favoured (result : string) : option player :=
  if String.eqb result "1-0" then Some White
  else if String.eqb result "0-1" then Some Black
  else None.

Definition to_move `{Lc0} (history : PositionHistory) : player :=
  if IsBlackToMove history then Black else White.

Definition label_for (result : string) (mover : player) : Z :=
  match favoured result, mover with
  | None, _ => 0
  | Some White, White | Some Black, Black => 1
  | Some White, Black | Some Black, White => -1
  end.

Definition draw_confidence_for (result : string) : float :=
  match favoured result with
  | None => 1%float
  | Some _ => 0%float
  end.

(** The positions of a game: the starting position and what lc0 makes of
    it by appending moves. *)
Definition position_of `{Lc0} (pgn : pgn_t) (history : PositionHistory)
    : Prop :=
  exists played : list Move,
    history = fold_left Append played (Reset (starting_fen pgn)).

(** The record [c] stores the position [history]: its planes are the
    encoding of that position and its side to move is the one of that
    position. *)
Definition stores `{Lc0} (c : V4TrainingData) (history : PositionHistory)
    : Prop :=
  planes c
  = map resever_bits_in_bytes
        (take planes_size (EncodePositionForNN history))
  /\ side_to_move c = bool_to_Z (IsBlackToMove history).

(** The bit that [resever_bits_in_bytes] moves to the place [n]: the one
    at the mirrored place of the same byte. *)
Definition flip_in_byte (n : Z) : Z := 8 * (n / 8) + (7 - n mod 8).

(** The moves of a game that are not annotation-filtered. *)
Definition unfiltered (toks : list pgn_move) : list pgn_move :=
  filter (fun tok => bad_move_of (last_read_nag tok) = false) toks.

(** Two loop states that differ in the lines printed only, and two ends of
    a pass or of the loop that do. *)
Definition same_game `{Lc0} `{Polyglot} (a b : loop_state) : Prop :=
  board a = board b
  /\ position_history a = position_history b
  /\ writer a = writer b
  /\ game_id a = game_id b.

Definition same_result `{Lc0} `{Polyglot} (x y : body_result) : Prop :=
  match x, y with
  | Continue a, Continue b | Break a, Break b | NullWriter a, NullWriter b
  | DivisionByZero a, DivisionByZero b =>
      same_game a b
  | Uncaught e a, Uncaught e' b => e = e' /\ same_game a b
  | _, _ => False
  end.

(** What a call of [write_one_game_training_data] leaves behind, the lines
    printed apart: the value returned and the shard, or the way the call
    stopped. *)
Definition files_of (o : game_outcome) : game_outcome :=
  match o with
  | Returned game_written shard _ => Returned game_written shard []
  | Crashed _ => Crashed []
  | Terminated e _ => Terminated e []
  | Killed _ => Killed []
  end.

(** A field of a FEN: a non-empty text without blanks; a gap between two
    fields: a non-empty run of blanks; and what may follow the fourth
    field: nothing, or a blank and more text. *)
Definition fen_field (f : list ascii) : Prop :=
  f <> [] /\ Forall (fun c => isspace c = false) f.

Definition fen_gap (b : list ascii) : Prop :=
  b <> [] /\ Forall (fun c => isspace c = true) b.

Definition fen_rest (tail : list ascii) : Prop :=
  match tail with
  | [] => True
  | c :: _ => isspace c = true
  end.

(** What a scan of the command line [argv] that started from [s0] and
    reached its end has set: the two flags are on when they were on or
    their word occurs; a numeric setting is the one of [s0] when its word
    does not occur, and the value that follows the last occurrence of its
    word otherwise. *)
Definition scanned (atoi : string -> Z) (argv : list string)
    (s0 s : settings) : Prop :=
  (verbose (options_of s) = true
   <-> verbose (options_of s0) = true \/ In "-v"%string argv)
  /\ (fishtest_mode (options_of s) = true
      <-> fishtest_mode (options_of s0) = true
          \/ In "-fishtest-mode"%string argv)
  /\ (~ In "-games-per-dir"%string argv ->
      games_per_directory s = games_per_directory s0)
  /\ (forall pre value post,
        argv = pre ++ "-games-per-dir"%string :: value :: post ->
        ~ In "-games-per-dir"%string (value :: post) ->
        games_per_directory s = u64 (atoi value))
  /\ (~ In "-max-games-to-convert"%string argv ->
      games_to_convert s = games_to_convert s0)
  /\ (forall pre value post,
        argv = pre ++ "-max-games-to-convert"%string :: value :: post ->
        ~ In "-max-games-to-convert"%string (value :: post) ->
        games_to_convert s = u64 (atoi value)).

(** * Properties *)

(** ** ScoreExtractor *)

(** A pattern that opens with a brace is no pattern of the grammar,
    whatever follows the brace: no term starts with a brace, so the
    disjunction that is read is empty and the brace is left over. *)
Lemma compile_brace (pattern : string) :
  Regex.compile (String "{" pattern) = Throws regex_error.
Proof.
  unfold Regex.compile.
  change (list_ascii_of_string (String "{" pattern))
    with ("{"%char :: list_ascii_of_string pattern).
  generalize (list_ascii_of_string pattern). intros s.
  change (2 * S (length ("{"%char :: s)))%nat
    with (S (S (length s + S (S (length s + 0))))).
  reflexivity.
Qed.

Lemma extract_fishtest_comment_score_throws_eq `{Libc} (comment : string) :
  extract_fishtest_comment_score comment = Throws regex_error.
Proof.
  unfold extract_fishtest_comment_score, rgx_pattern.
  by rewrite compile_brace.
Qed.

(** C5.  The two patterns open with a brace that is not escaped, so the
    construction of the first [static std::regex] throws
    [std::regex_error] at every call: for no comment does
    [extract_fishtest_comment_score] return an evaluation, or report that
    there is none. *)
Theorem extract_fishtest_comment_score_throws `{Libc} (comment : string) :
  extract_fishtest_comment_score comment = Throws regex_error.
Proof. apply extract_fishtest_comment_score_throws_eq. Qed.

(** ** OutcomeConverter *)



(** ** ProbabilityDistributionBuilder *)

Section Probabilities.

Context `{Lc0}.

(** The loop over [legal_moves]: a cell whose index belongs to no move of
    the list keeps its content, the others hold the pattern stored. *)
Lemma store_legal_moves_length (legal : list Move) (v : Z) (p : list Z) :
  length (fold_left (fun p move => <[as_nn_index move := v]> p) legal p)
  = length p.
Proof.
  revert p. induction legal as [|m legal IH]; intros p; simpl; [done|].
  by rewrite IH, length_insert.
Qed.

Lemma store_legal_moves_other (legal : list Move) (v : Z) (p : list Z) i :
  (forall m, In m legal -> as_nn_index m <> i) ->
  fold_left (fun p move => <[as_nn_index move := v]> p) legal p !! i = p !! i.
Proof.
  revert p. induction legal as [|m legal IH]; intros p Hno; simpl; [done|].
  rewrite IH by (intros m' Hin; apply Hno; by right).
  apply list_lookup_insert_ne. apply Hno. by left.
Qed.

Lemma store_legal_moves_index (legal : list Move) (v : Z) (p : list Z) i :
  (exists m, In m legal /\ as_nn_index m = i) -> (i < length p)%nat ->
  fold_left (fun p move => <[as_nn_index move := v]> p) legal p !! i = Some v.
Proof.
  revert p. induction legal as [|m' legal IH]; intros p (m & Hin & Hm) Hlt.
  { destruct Hin. }
  simpl.
  destruct (decide (Exists (fun m'' => as_nn_index m'' = i) legal))
    as [Hex | Hno].
  - apply IH; [by apply List.Exists_exists | by rewrite length_insert].
  - rewrite store_legal_moves_other.
    + destruct Hin as [-> | Hin].
      * rewrite Hm. by apply list_lookup_insert_eq.
      * destruct Hno. apply List.Exists_exists. by exists m.
    + intros m'' Hin'' E. apply Hno, List.Exists_exists. by exists m''.
Qed.

(** What [memset] leaves in a cell, and what that pattern reads as. *)
Lemma memset_cell :
  F32.cell_of_byte (F32.byte_of_int (F32.to_int (-1)%float)) = 0xFFFFFFFF.
Proof. reflexivity. Qed.

Lemma all_ones_is_nan : F32.to_float 0xFFFFFFFF = nan.
Proof. reflexivity. Qed.

Lemma minus_one_cell : F32.of_float (-1)%float = 0xBF800000.
Proof. reflexivity. Qed.

Lemma one_cell : F32.of_float 1%float = 0x3F800000.
Proof. reflexivity. Qed.

Lemma zero_cell : F32.of_float 0%float = 0.
Proof. reflexivity. Qed.


(** The cell of the played move holds [1.0f]. *)
Lemma fill_probabilities_played played legal :
  (as_nn_index played < probabilities_size)%nat ->
  fill_probabilities played legal !! as_nn_index played = Some 0x3F800000.
Proof.
  intros Hlt. unfold fill_probabilities. rewrite one_cell.
  apply list_lookup_insert_eq.
  unfold F32.memset. by rewrite store_legal_moves_length, length_replicate.
Qed.

(** The cell of a legal move with another index than the played move
    holds [0.0f]. *)
Lemma fill_probabilities_legal played legal i :
  (exists m, In m legal /\ as_nn_index m = i) ->
  i <> as_nn_index played ->
  (i < probabilities_size)%nat ->
  fill_probabilities played legal !! i = Some 0.
Proof.
  intros Hin Hne Hlt. unfold fill_probabilities.
  rewrite list_lookup_insert_ne by done. rewrite zero_cell.
  apply store_legal_moves_index; [done|].
  unfold F32.memset. by rewrite length_replicate.
Qed.

(** Every other cell holds what [memset] wrote. *)
Lemma fill_probabilities_other played legal i :
  (i < probabilities_size)%nat -> i <> as_nn_index played ->
  (forall m, In m legal -> as_nn_index m <> i) ->
  fill_probabilities played legal !! i = Some 0xFFFFFFFF.
Proof.
  intros Hlt Hne Hno. unfold fill_probabilities.
  rewrite list_lookup_insert_ne by done.
  rewrite store_legal_moves_other by done.
  unfold F32.memset. rewrite memset_cell.
  by apply lookup_replicate_2.
Qed.

End Probabilities.

Lemma get_v4_training_data_probabilities `{Lc0} game_result history
    played_move legal_moves Q :
  probabilities
    (get_v4_training_data game_result history played_move legal_moves Q)
  = fill_probabilities played_move legal_moves.
Proof.
  unfold get_v4_training_data.
  by destruct game_result, (IsBlackToMove history).
Qed.

(** C1.  The cell of the played move in the record reads [1] and the cell
    of any other legal move reads [0], but the cells that belong to no legal
    move do not read [-1]: [memset] receives [-1.0f] as the [int] [-1] and
    writes the byte [0xFF] everywhere, so such a cell holds the pattern
    [0xFFFFFFFF], which is a NaN, while [-1.0f] is the pattern
    [0xBF800000]. *)
Theorem probabilities_of_record `{Lc0} (game_result : GameResult)
    (history : PositionHistory) (played : Move) (legal : list Move)
    (Q : float) (i : nat) :
  (i < probabilities_size)%nat ->
  exists cell,
    probabilities (get_v4_training_data game_result history played legal Q)
      !! i = Some cell
    /\ if decide (i = as_nn_index played) then F32.to_float cell = 1%float
       else if decide (Exists (fun m => as_nn_index m = i) legal)
       then F32.to_float cell = 0%float
       else F32.to_float cell = nan /\ cell <> F32.of_float (-1)%float.
Proof.
  intros Hlt. rewrite get_v4_training_data_probabilities.
  destruct (decide (i = as_nn_index played)) as [-> | Hne].
  { exists 0x3F800000. split; [by apply fill_probabilities_played | done]. }
  destruct (decide (Exists (fun m => as_nn_index m = i) legal)) as [Hex | Hno].
  { exists 0. split; [|done].
    apply fill_probabilities_legal; [by apply List.Exists_exists | done..]. }
  exists 0xFFFFFFFF. split.
  - apply fill_probabilities_other; [done..|].
    intros m Hin E. apply Hno, List.Exists_exists. by exists m.
  - split; [apply all_ones_is_nan | by rewrite minus_one_cell].
Qed.

(** The same on a position of a drawn game with three legal moves, the
    first of them played: cell 0 belongs to none of them. *)
Lemma probabilities_of_record_sample :
  exists cell,
    probabilities
      (get_v4_training_data (H := Sample.lc0) DRAW (false, 0)
         (Move_of (mkBoardSquare 1 4) (mkBoardSquare 3 4)) Sample.legal_moves
         0%float)
      !! 0%nat = Some cell
    /\ F32.to_float cell = nan /\ cell <> F32.of_float (-1)%float.
Proof.
  destruct (probabilities_of_record (H := Sample.lc0) DRAW (false, 0)
              (Move_of (mkBoardSquare 1 4) (mkBoardSquare 3 4))
              Sample.legal_moves 0%float 0%nat)
    as (cell & Hcell & Hread).
  - vm_compute. lia.
  - exists cell. split; [exact Hcell | exact Hread].
Defined.

(** ** TrainingRecordAssembler *)

Lemma get_v4_training_data_labelled `{Lc0} game_result history played_move
    legal_moves Q :
  labelled game_result
    (get_v4_training_data game_result history played_move legal_moves Q).
Proof.
  unfold labelled, get_v4_training_data.
  destruct game_result, (IsBlackToMove history); simpl; done.
Qed.

(** ** GameProcessor: one pass through the loop body *)

Section LoopFacts.

Context `{Libc} `{Lc0} `{Polyglot}.

Variable max_games_per_directory : Z.
Variable options : Options.
Variable game_result : GameResult.

Local Abbreviation body :=
  (loop_body max_games_per_directory options game_result).
Local Abbreviation loop :=
  (move_loop max_games_per_directory options game_result).
Local Abbreviation score := (score_of options).
Local Abbreviation writer' := (writer_of max_games_per_directory options).
Local Abbreviation game_id' := (game_id_of max_games_per_directory options).
Local Abbreviation chunk := (chunk_of options game_result).
Local Abbreviation out := (printed_of max_games_per_directory options).
Local Abbreviation next := (next_state max_games_per_directory options).

(** The body of the loop, by the parts of the pass. *)
Lemma loop_body_eq st tok :
  body st tok =
  if accepted st tok then
    match score st tok with
    | ScoreBreak => Break st
    | ScoreThrows e => Uncaught e st
    | _ =>
        match init_writer max_games_per_directory (score st tok) (writer st)
                (game_id st) with
        | None => DivisionByZero st
        | Some _ =>
            if bad_move_of (last_read_nag tok) then
              Continue (next st tok (writer' st tok) (out st tok))
            else
              match writer' st tok with
              | Some w =>
                  Continue (next st tok (Some (WriteChunk w (chunk st tok)))
                                 (out st tok))
              | None =>
                  NullWriter {| board := board st;
                                position_history := position_history st;
                                writer := None;
                                game_id := game_id' st tok;
                                printed := out st tok |}
              end
        end
    end
  else
    Break {| board := board st; position_history := position_history st;
             writer := writer st; game_id := game_id st;
             printed := printed st ++ [IllegalMove (move_text tok)] |}.
Proof.
  unfold loop_body, accepted, printed_of, not_found_line, next_state,
    writer_of, game_id_of, chunk_of, found_of, str_of, lc0_move_of, score_of,
    move_of.
  destruct (_ || _); simpl; [done|].
  destruct (fishtest_score_of _ _ _ _); [done | | | done];
    unfold init_writer, directory_of; destruct (writer st); simpl;
    try destruct (max_games_per_directory =? 0); simpl;
    first [done | by destruct (bad_move_of (last_read_nag tok))].
Qed.

(** How the score of a move comes about. *)
Lemma score_NoScore st tok :
  score st tok = NoScore
  <-> last_read_comment tok = ""%string /\ fishtest_mode options = false.
Proof.
  unfold score_of, fishtest_score_of.
  destruct (last_read_comment tok) as [|c text]; simpl.
  - destruct (fishtest_mode options); split; try done. by intros [_ [=]].
  - rewrite ?extract_fishtest_comment_score_throws_eq.
    destruct (move_is_mate _ _); split; try done; by intros [[=] _].
Qed.

Lemma score_Score st tok s :
  score st tok = Score s
  <-> nonempty (last_read_comment tok) = true
      /\ if move_is_mate (move_of st tok) (board st)
         then s = (if IsBlackToMove (position_history st)
                   then (-128)%float else 128%float)
         else extract_fishtest_comment_score (last_read_comment tok)
              = Returns (Some s).
Proof.
  unfold score_of, fishtest_score_of.
  destruct (nonempty (last_read_comment tok)).
  - destruct (move_is_mate _ _).
    + split; [by intros [= <-] | by intros [_ ->]].
    + rewrite extract_fishtest_comment_score_throws_eq.
      split; [done | by intros [_ [=]]].
  - destruct (fishtest_mode options); split; try done; by intros [[=] _].
Qed.

(** A comment is read only when the move does not mate, and reading it
    throws: such a move has no score, and it does not break the loop. *)
Lemma score_ScoreThrows st tok :
  nonempty (last_read_comment tok) = true ->
  move_is_mate (move_of st tok) (board st) = false ->
  score st tok = ScoreThrows regex_error.
Proof.
  unfold score_of, fishtest_score_of. intros -> ->.
  by rewrite extract_fishtest_comment_score_throws_eq.
Qed.

(** The writer after the score was read: the one of the state, or a new
    one with no chunk, opened under the game id of the state. *)
Lemma writer_of_cases st tok :
  writer' st tok = writer st
  \/ (writer st = None
      /\ (exists s, score st tok = Score s)
      /\ max_games_per_directory <> 0
      /\ writer' st tok
         = Some (new_TrainingDataWriter (game_id st)
                   (game_id st / max_games_per_directory))).
Proof.
  unfold writer_of, init_writer, directory_of.
  destruct (score st tok) as [| |s|e]; try by left.
  destruct (writer st); [by left|].
  destruct (Z.eqb_spec max_games_per_directory 0); [by left | right].
  by eauto.
Qed.

Lemma writer_of_NoScore st tok :
  score st tok = NoScore -> writer' st tok = writer st.
Proof. unfold writer_of, init_writer. by intros ->. Qed.

Lemma writer_of_Score st tok s :
  score st tok = Score s ->
  init_writer max_games_per_directory (score st tok) (writer st) (game_id st)
  <> None ->
  is_Some (writer' st tok).
Proof.
  unfold writer_of, init_writer, directory_of. intros ->.
  destruct (writer st); [by eauto|].
  destruct (max_games_per_directory =? 0); [done | by eauto].
Qed.

(** C10.  The write is reached with a null writer: outside strict mode, a
    move that passes the legality test, has no comment and no filtering
    glyph, in a game that has not opened its writer yet, takes the pass to
    [writer->WriteChunk(chunk)] with [writer == nullptr]. *)
Theorem write_chunk_on_null_writer st tok :
  fishtest_mode options = false ->
  last_read_comment tok = ""%string ->
  accepted st tok = true ->
  bad_move_of (last_read_nag tok) = false ->
  writer st = None ->
  body st tok
  = NullWriter {| board := board st; position_history := position_history st;
                  writer := None; game_id := game_id st;
                  printed := out st tok |}.
Proof.
  intros Hmode Hcomment Hacc Hbad Hw.
  assert (Hs : score st tok = NoScore) by by apply score_NoScore.
  rewrite loop_body_eq, Hacc, Hs, Hbad, (writer_of_NoScore _ _ Hs), Hw.
  unfold game_id_of, init_writer. by rewrite Hs.
Qed.

(** C3, as amended.  A move that delivers checkmate and carries a comment
    gets its evaluation without the comment being parsed: [-128] when Black
    is to move in the position before the move (Black delivers the mate),
    [128] when White is. *)
Theorem mate_score_by_side_before_move st tok :
  nonempty (last_read_comment tok) = true ->
  move_is_mate (move_of st tok) (board st) = true ->
  score st tok
  = Score (if IsBlackToMove (position_history st)
           then (-128)%float else 128%float).
Proof.
  intros Hcomment Hmate. apply score_Score. by rewrite Hcomment, Hmate.
Qed.




End LoopFacts.

(** ** MoveTranslator *)

Lemma MirrorSquare_involutive (s : BoardSquare) :
  MirrorSquare (MirrorSquare s) = s.
Proof. destruct s as [r c]. unfold MirrorSquare; simpl. f_equal. lia. Qed.

(** C9, as amended.  For a move of the second player, mirroring the
    translated move back gives the from-square of the move and the rank of
    its to-square; it gives the whole to-square unless the move is
    translated as a castling move, whose to-square has file 6 (short) or
    2 (long) whatever the file of the move's own to-square. *)
Theorem mirror_back_after_translation `{Polyglot} (move : Z)
    (board : board_t) :
  colour_is_black (turn board) = true ->
  let m := Mirror (poly_move_to_lc0_move move board) in
  from m = from_square move
  /\ row (to m) = square_rank (move_to move)
  /\ if negb (move_is_promote move) && move_is_castle move board
     then col (to m)
          = (if square_file (move_from move) <? square_file (move_to move)
             then 6 else 2)
     else to m = to_square move.
Proof.
  intros Hblack. unfold poly_move_to_lc0_move. rewrite Hblack.
  destruct (move_is_promote move); [|destruct (move_is_castle move board)];
    simpl; rewrite ?MirrorSquare_involutive; repeat split; lia.
Qed.

(** ** GameProcessor: the loop and the game *)

Section GameFacts.

Context `{Libc} `{Lc0} `{Polyglot}.

Variable max_games_per_directory : Z.
Variable options : Options.
Variable game_result : GameResult.

Local Abbreviation body :=
  (loop_body max_games_per_directory options game_result).
Local Abbreviation loop :=
  (move_loop max_games_per_directory options game_result).

Local Abbreviation writer' := (writer_of max_games_per_directory options).
Local Abbreviation game_id' := (game_id_of max_games_per_directory options).
Local Abbreviation chunk := (chunk_of options game_result).
Local Abbreviation out := (printed_of max_games_per_directory options).
Local Abbreviation next := (next_state max_games_per_directory options).

(** A pass that reaches the end of the body has executed the move, with
    the writer after the score or with that writer and one more record. *)
Lemma body_Continue st tok st' :
  body st tok = Continue st' ->
  accepted st tok = true
  /\ (score_of options st tok = NoScore
      \/ exists s, score_of options st tok = Score s)
  /\ init_writer max_games_per_directory (score_of options st tok)
       (writer st) (game_id st) <> None
  /\ (bad_move_of (last_read_nag tok) = true
      /\ st' = next st tok (writer' st tok) (out st tok)
      \/ bad_move_of (last_read_nag tok) = false
         /\ exists w,
              writer' st tok = Some w
              /\ st' = next st tok (Some (WriteChunk w (chunk st tok)))
                             (out st tok)).
Proof.
  rewrite loop_body_eq. destruct (accepted st tok); [|done].
  intros Hb. split; [done|]. revert Hb.
  destruct (score_of options st tok) as [| |s|e]; [done | | | done];
    (destruct (init_writer _ _ _ _); [|done];
     intros Hb; split; [by eauto|]; split; [done|]; revert Hb;
     destruct (bad_move_of (last_read_nag tok));
     [ intros [= <-]; by left
     | destruct (writer' st tok) as [w|]; [|done];
       intros [= <-]; right; by eauto ]).
Qed.

(** A pass that ends in a [break] leaves the game as it was. *)
Lemma body_Break st tok st' :
  body st tok = Break st' ->
  board st' = board st
  /\ position_history st' = position_history st
  /\ writer st' = writer st
  /\ game_id st' = game_id st.
Proof.
  rewrite loop_body_eq. destruct (accepted st tok); [|by intros [= <-]].
  destruct (score_of options st tok); [by intros [= <-] | | | done];
    (destruct (init_writer _ _ _ _); [|done];
     destruct (bad_move_of (last_read_nag tok)); [done|];
     by destruct (writer' st tok)).
Qed.

(** The writer after the score was read holds the chunks written so far. *)
Lemma writer_of_chunks st tok :
  match writer' st tok with Some w => chunks w | None => [] end = written st.
Proof.
  unfold written.
  destruct (writer_of_cases max_games_per_directory options st tok)
    as [-> | (Hn & _ & _ & ->)]; [done | by rewrite Hn].
Qed.

(** What a pass does to the chunks written. *)
Lemma body_written st tok st' :
  body st tok = Continue st' \/ body st tok = Break st' ->
  written st' = written st
  \/ written st' = written st ++ [chunk_of options game_result st tok].
Proof.
  pose proof (writer_of_chunks st tok) as Hc.
  intros [Hb | Hb].
  - apply body_Continue in Hb as (_ & _ & _ & [(_ & ->) | (_ & w & Hw & ->)]).
    + left. unfold written at 1; simpl. exact Hc.
    + right. unfold written at 1; simpl. by rewrite <- Hc, Hw.
  - apply body_Break in Hb as (_ & _ & Hw & _). left.
    unfold written. by rewrite Hw.
Qed.

Local Abbreviation opened_under := (opened_under max_games_per_directory).

Lemma body_opened_under gid st tok st' :
  opened_under gid st ->
  body st tok = Continue st' \/ body st tok = Break st' ->
  opened_under gid st'.
Proof.
  intros Hinv [Hb | Hb].
  - assert (Hw : opened_under gid
                   (next st tok (writer' st tok) (out st tok))).
    { unfold opened_under, next_state, game_id_of, writer_of, init_writer,
        directory_of in *; simpl.
      destruct (score_of options st tok), (writer st); simpl; try done.
      destruct (max_games_per_directory =? 0); simpl; [done | by subst]. }
    apply body_Continue in Hb as (_ & _ & _ & [(_ & ->) | (_ & w & Hw' & ->)]);
      [done|].
    unfold opened_under in *; simpl in *. by rewrite Hw' in Hw.
  - apply body_Break in Hb as (_ & _ & Hw & Hg).
    unfold opened_under in *. by rewrite Hw, Hg.
Qed.

(** An invariant of the passes holds when the loop is left. *)
Lemma move_loop_invariant (P : loop_state -> Prop) :
  (forall st tok st',
     P st -> body st tok = Continue st' \/ body st tok = Break st' -> P st') ->
  forall toks st st',
    P st -> loop st toks = Continue st' \/ loop st toks = Break st' -> P st'.
Proof.
  intros Hstep. induction toks as [|tok toks IH]; intros st st' HP; simpl.
  - by intros [[= <-] | [=]].
  - destruct (body st tok) as [st1 | st1 | st1 | e st1 | st1] eqn:Hb.
    + apply IH. apply (Hstep st tok); by eauto.
    + intros [[=] | [= <-]]. apply (Hstep st tok); by eauto.
    + by intros [[=] | [=]].
    + by intros [[=] | [=]].
    + by intros [[=] | [=]].
Qed.

Lemma move_loop_labelled toks st st' :
  Forall (labelled game_result) (written st) ->
  loop st toks = Continue st' \/ loop st toks = Break st' ->
  Forall (labelled game_result) (written st').
Proof.
  apply (move_loop_invariant
           (fun st => Forall (labelled game_result) (written st))).
  clear. intros st tok st' HP Hb.
  destruct (body_written _ _ _ Hb) as [-> | ->]; [done|].
  apply Forall_app. split; [done|]. constructor; [|done].
  apply get_v4_training_data_labelled.
Qed.

Lemma move_loop_opened_under gid toks st st' :
  opened_under gid st ->
  loop st toks = Continue st' \/ loop st toks = Break st' ->
  opened_under gid st'.
Proof.
  apply (move_loop_invariant (opened_under gid)).
  intros ? ? ?. apply body_opened_under.
Qed.

End GameFacts.

Section WriteOneGame.

Context `{Libc} `{Lc0} `{Polyglot}.

Variable max_games_per_directory : Z.
Variable options : Options.

(** The shard a game returns was opened under the game id the call
    received, in the directory of that id, and is finalized; the call
    returns [true] exactly when there is one. *)
Lemma write_one_game_shard pgn game_id game_written shard out :
  write_one_game_training_data max_games_per_directory pgn game_id options
  = Returned game_written shard out ->
  match shard with
  | Some w =>
      game_written = true
      /\ writer_game_id w = game_id
      /\ writer_dir w = game_id / max_games_per_directory
      /\ finalized w = true
  | None => game_written = false
  end.
Proof.
  unfold write_one_game_training_data.
  set (st0 := {| board := _; position_history := _; writer := None;
                 game_id := game_id; printed := [] |}).
  assert (H0' : opened_under max_games_per_directory game_id st0) by done.
  destruct (move_loop _ _ _ st0 (moves pgn))
    as [st' | st' | st' | e st' | st'] eqn:Hl; [| |done..].
  all: assert (Hinv : opened_under max_games_per_directory game_id st')
    by (eapply move_loop_opened_under; [exact H0' | by eauto]).
  all: unfold opened_under in Hinv; destruct (writer st') as [w|];
    intros [= <- <- <-]; [by destruct Hinv as (_ & ? & ? & _) | done].
Qed.

(** The label and the draw confidence of a record, by the result of the
    PGN and the player to move in the position the record is built from. *)
Lemma get_v4_training_data_label pgn history played_move legal_moves Q :
  let c := get_v4_training_data (game_result_of pgn) history played_move
             legal_moves Q in
  stores c history
  /\ result c = label_for (pgn_result pgn) (to_move history)
  /\ root_d c = draw_confidence_for (pgn_result pgn)
  /\ best_d c = draw_confidence_for (pgn_result pgn).
Proof.
  unfold stores, get_v4_training_data, game_result_of, label_for,
    draw_confidence_for, favoured, to_move.
  destruct (String.eqb (pgn_result pgn) "1-0");
    [|destruct (String.eqb (pgn_result pgn) "0-1")];
    by destruct (IsBlackToMove history).
Qed.

(** C8.  Every record of the shard of a game stores a position of the
    game and carries the label of the game's result seen from the player to
    move in that position: [+1] when the result of the PGN favours that
    player, [-1] when it favours the other, [0] when it favours nobody; and
    it carries the draw confidence of the result, [0.0] when the result
    favours a player and [1.0] when it does not.  In a drawn game every
    record has the label [0] and the draw confidence [1.0]. *)
Theorem emitted_records_carry_game_result pgn game_id game_written w out :
  write_one_game_training_data max_games_per_directory pgn game_id options
  = Returned game_written (Some w) out ->
  Forall (fun c =>
            exists history,
              position_of pgn history
              /\ stores c history
              /\ result c = label_for (pgn_result pgn) (to_move history)
              /\ root_d c = draw_confidence_for (pgn_result pgn)
              /\ best_d c = draw_confidence_for (pgn_result pgn))
         (chunks w)
  /\ (pgn_result pgn = "1/2-1/2"%string ->
      Forall (fun c => result c = 0 /\ root_d c = 1%float
                       /\ best_d c = 1%float)
             (chunks w)).
Proof.
  intros Hret.
  set (Q := fun c : V4TrainingData =>
              exists history,
                position_of pgn history
                /\ stores c history
                /\ result c = label_for (pgn_result pgn) (to_move history)
                /\ root_d c = draw_confidence_for (pgn_result pgn)
                /\ best_d c = draw_confidence_for (pgn_result pgn)).
  assert (Hall : Forall Q (chunks w)).
  { revert Hret. unfold write_one_game_training_data.
    set (st0 := {| board := _; position_history := _; writer := None;
                   game_id := game_id; printed := [] |}).
    set (P := fun st : loop_state =>
                position_of pgn (position_history st)
                /\ Forall Q (written st)).
    assert (H0' : P st0) by (split; [by exists [] | constructor]).
    assert (Hstep : forall st tok st',
               P st ->
               loop_body max_games_per_directory options (game_result_of pgn)
                 st tok = Continue st'
               \/ loop_body max_games_per_directory options
                    (game_result_of pgn) st tok = Break st' ->
               P st').
    { intros st tok st' [Hpos HQ] Hb. split.
      - destruct Hb as [Hb | Hb].
        + apply body_Continue
            in Hb as (_ & _ & _ & [(_ & ->) | (_ & w' & _ & ->)]);
            simpl; destruct Hpos as [played ->];
            exists (played ++ [lc0_move_of st tok]);
            by rewrite fold_left_app.
        + apply body_Break in Hb as (_ & -> & _). done.
      - destruct (body_written _ _ _ _ _ _ Hb) as [-> | ->]; [done|].
        apply Forall_app. split; [done|]. constructor; [|done].
        exists (position_history st). split; [done|].
        apply get_v4_training_data_label. }
    destruct (move_loop _ _ _ st0 (moves pgn))
      as [st' | st' | st' | e st' | st'] eqn:Hl; [| |done..].
    all: assert (Hinv : P st')
      by (eapply (move_loop_invariant _ _ _ P Hstep); [exact H0' | by eauto]).
    all: destruct Hinv as [_ Hinv]; unfold written in Hinv;
      destruct (writer st') as [w'|]; [|done]; by intros [= <- <- <-]. }
  split; [exact Hall|].
  intros Hdraw. eapply Forall_impl; [exact Hall|].
  intros c (history & _ & _ & Hr & Hd & Hb).
  rewrite Hdraw in Hr, Hd, Hb. done.
Qed.

End WriteOneGame.

(** ** [main] *)

Section MainFacts.

Context `{Libc} `{Lc0} `{Polyglot}.

Variable max_games_per_directory : Z.
Variable max_games_to_convert : Z.
Variable options : Options.

Local Abbreviation numbered := (numbered max_games_per_directory).

Lemma convert_file_numbered games st :
  numbered st ->
  numbered (convert_file max_games_per_directory max_games_to_convert options
              games st).
Proof.
  revert st. induction games as [|pgn games IH]; intros st Hn; simpl; [done|].
  destruct (crashed st); [done|].
  destruct (main_game_id st <? max_games_to_convert); [|done].
  destruct (write_one_game_training_data _ _ _ _)
    as [game_written shard out | out | e out | out] eqn:Hg; [|done..].
  apply IH. apply write_one_game_shard in Hg.
  destruct Hn as [Hid Hshards]. destruct shard as [w|].
  - destruct Hg as (-> & Hgid & Hdir & _). split; simpl.
    + rewrite length_app; simpl. lia.
    + intros n w' Hlook. apply lookup_app_Some in Hlook as [Hlook | [Hge Hlook]].
      * by apply Hshards.
      * apply list_lookup_singleton_Some in Hlook as [Hn0 <-].
        assert (Z.of_nat n = main_game_id st) as -> by lia. done.
  - rewrite Hg. done.
Qed.

Lemma main_numbered files :
  numbered (main max_games_per_directory max_games_to_convert options files).
Proof.
  unfold main.
  assert (H0' : numbered {| main_game_id := 0; shards := [];
                            crashed := false |}) by (split; done).
  revert H0'. generalize {| main_game_id := 0; shards := []; crashed := false |}.
  induction files as [|games files IH]; intros st Hn; simpl; [done|].
  apply IH. by apply convert_file_numbered.
Qed.

(** The [n]-th game written (from 0) is written under the game id [n], in
    the directory [n / max_games_per_directory], whatever games came
    before it without being written. *)
Theorem partition_of_nth_written_game files (n : nat) w :
  shards (main max_games_per_directory max_games_to_convert options files)
    !! n = Some w ->
  writer_game_id w = Z.of_nat n
  /\ writer_dir w = Z.of_nat n / max_games_per_directory.
Proof. apply main_numbered. Qed.

(** C6.  A game that produces no record advances the game counter all the
    same.  Its only move passes the legality test, delivers mate and has a
    comment, so that it has an evaluation and opens the writer, and it is
    annotation-filtered, so that it is not written: the call returns [true]
    with a shard that holds no record, and [main] counts the game. *)
Theorem game_without_records_advances_counter pgn tok :
  moves pgn = [tok] ->
  accepted (initial_state pgn 0) tok = true ->
  move_is_mate (move_of (initial_state pgn 0) tok)
               (board (initial_state pgn 0)) = true ->
  nonempty (last_read_comment tok) = true ->
  bad_move_of (last_read_nag tok) = true ->
  max_games_per_directory <> 0 ->
  0 < max_games_to_convert ->
  let st := main max_games_per_directory max_games_to_convert options
              [[pgn]] in
  main_game_id st = 1
  /\ map (fun w => length (chunks w)) (shards st) = [0%nat].
Proof.
  intros Hm Hacc Hmate Hc Hbad Hdir Hconv.
  assert (Hs : score_of options (initial_state pgn 0) tok
               = Score (if IsBlackToMove
                             (position_history (initial_state pgn 0))
                        then (-128)%float else 128%float)).
  { apply score_Score. by rewrite Hc, Hmate. }
  assert (Hw : write_one_game_training_data max_games_per_directory pgn 0
                 options
               = Returned true
                   (Some (Finalize (new_TrainingDataWriter 0
                                      (0 / max_games_per_directory))))
                   (printed_of max_games_per_directory options
                      (initial_state pgn 0) tok)).
  { unfold write_one_game_training_data. fold (initial_state pgn 0).
    rewrite Hm. cbn [move_loop].
    rewrite loop_body_eq, Hacc, Hs, Hbad.
    unfold writer_of. rewrite Hs. unfold init_writer, directory_of; simpl.
    destruct (Z.eqb_spec max_games_per_directory 0); [done|]. done. }
  unfold main; simpl.
  destruct (Z.ltb_spec 0 max_games_to_convert); [|lia].
  by rewrite Hw.
Qed.

End MainFacts.

(** ** TrainingRecordAssembler: the planes and the fields of a record *)

(** One of the three steps of [resever_bits_in_bytes], bit by bit: the step
    with the mask [M] and the distance [k] brings to the place [n] the bit
    [k] places above where the mask is set at [n], and, within 64 bits, the
    bit [k] places below where the mask is set there. *)

Lemma swap_testbit v M k n :
  0 <= k ->
  Z.testbit (Z.lor (Z.land (Z.shiftr v k) M) (u64 (Z.shiftl (Z.land v M) k))) n
  = (Z.testbit M n && Z.testbit v (n + k))
    || ((n <? 64) && (Z.testbit M (n - k) && Z.testbit v (n - k))).
Proof.
  intros Hk. destruct (Z.ltb_spec n 0) as [Hn | Hn].
  - rewrite !(Z.testbit_neg_r _ n), (Z.testbit_neg_r M (n - k)) by lia.
    by rewrite andb_false_r.
  - unfold u64.
    rewrite Z.lor_spec, Z.land_spec, Z.shiftr_spec, Z.testbit_mod_pow2,
      Z.shiftl_spec, Z.land_spec by lia.
    by rewrite (andb_comm (Z.testbit v (n + k))),
      (andb_comm (Z.testbit v (n - k))).
Qed.

(** A property of the 64 bit places may be checked place by place. *)
Lemma small_index (P : Z -> Prop) :
  (forall k : nat, (k < 64)%nat -> P (Z.of_nat k)) ->
  forall n, 0 <= n < 64 -> P n.
Proof.
  intros HP n Hn. rewrite <- (Z2Nat.id n) by lia. apply HP. lia.
Qed.

Lemma resever_bits_in_bytes_low v n :
  0 <= n < 64 ->
  Z.testbit (resever_bits_in_bytes v) n = Z.testbit v (flip_in_byte n).
Proof.
  revert n. apply small_index. intros k Hk.
  unfold resever_bits_in_bytes, flip_in_byte.
  rewrite !swap_testbit by lia.
  generalize (Z.testbit v). intros f.
  do 64 (destruct k as [|k];
         [clear Hk; cbn; rewrite ?orb_false_r; reflexivity|]).
  exfalso; lia.
Qed.

Lemma resever_bits_in_bytes_high v n :
  64 <= n -> Z.testbit (resever_bits_in_bytes v) n = false.
Proof.
  intros Hn. unfold resever_bits_in_bytes. rewrite swap_testbit by lia.
  rewrite (Z.bits_above_log2 0x0F0F0F0F0F0F0F0F n) by (simpl; lia).
  destruct (Z.ltb_spec n 64); [lia | done].
Qed.

Lemma resever_bits_in_bytes_range v : 0 <= resever_bits_in_bytes v < 2 ^ 64.
Proof.
  assert (E : resever_bits_in_bytes v mod 2 ^ 64 = resever_bits_in_bytes v).
  { apply Z.bits_inj'. intros n Hn. rewrite Z.testbit_mod_pow2 by lia.
    destruct (Z.ltb_spec n 64); [done|].
    by rewrite resever_bits_in_bytes_high. }
  rewrite <- E. apply Z.mod_pos_bound. lia.
Qed.

Lemma flip_in_byte_low n : 0 <= n < 64 -> 0 <= flip_in_byte n < 64.
Proof.
  revert n. apply small_index. intros k Hk. unfold flip_in_byte.
  do 64 (destruct k as [|k]; [clear Hk; vm_compute; by intuition|]).
  exfalso; lia.
Qed.

Lemma flip_in_byte_involutive n :
  0 <= n < 64 -> flip_in_byte (flip_in_byte n) = n.
Proof.
  revert n. apply small_index. intros k Hk. unfold flip_in_byte.
  do 64 (destruct k as [|k]; [clear Hk; reflexivity|]).
  exfalso; lia.
Qed.

Lemma flip_in_byte_split byte bit :
  0 <= bit < 8 -> flip_in_byte (8 * byte + bit) = 8 * byte + (7 - bit).
Proof.
  intros Hb. unfold flip_in_byte.
  replace (8 * byte + bit) with (bit + byte * 8) by lia.
  rewrite Z.div_add, Z.mod_add, Z.div_small, Z.mod_small by lia. lia.
Qed.

(** [resever_bits_in_bytes] reverses the order of the bits inside each of
    the eight bytes and leaves the bytes in place: the bit [bit] of the
    byte [byte] of the result is the bit [7 - bit] of the same byte of the
    argument; the result has no bit beyond the eighth byte. *)
Theorem resever_bits_in_bytes_reverses_each_byte (v byte bit : Z) :
  0 <= byte -> 0 <= bit < 8 ->
  Z.testbit (resever_bits_in_bytes v) (8 * byte + bit)
  = if byte <? 8 then Z.testbit v (8 * byte + (7 - bit)) else false.
Proof.
  intros Hbyte Hbit. destruct (Z.ltb_spec byte 8).
  - rewrite resever_bits_in_bytes_low by lia. by rewrite flip_in_byte_split.
  - apply resever_bits_in_bytes_high. lia.
Qed.

(** On 64-bit values [resever_bits_in_bytes] stays within 64 bits and is
    its own inverse. *)
Theorem resever_bits_in_bytes_involutive (v : Z) :
  0 <= v < 2 ^ 64 ->
  0 <= resever_bits_in_bytes v < 2 ^ 64
  /\ resever_bits_in_bytes (resever_bits_in_bytes v) = v.
Proof.
  intros Hv. split; [apply resever_bits_in_bytes_range|].
  apply Z.bits_inj'. intros n Hn. destruct (Z.ltb_spec n 64).
  - rewrite !resever_bits_in_bytes_low, flip_in_byte_involutive;
      [done | lia | by apply flip_in_byte_low | lia].
  - rewrite resever_bits_in_bytes_high by lia. symmetry.
    destruct (Z.eq_dec v 0) as [-> | Hnz]; [apply Z.testbit_0_l|].
    apply Z.bits_above_log2; [lia|].
    assert (Z.log2 v < 64) by (apply Z.log2_lt_pow2; lia). lia.
Qed.



(** The [i]-th plane of a record is the [i]-th mask of the encoder with
    the bits of each byte in reverse order. *)
Theorem record_planes_are_byte_reversed `{Lc0} game_result history
    played_move legal_moves Q (i : nat) (plane : Z) :
  planes (get_v4_training_data game_result history played_move legal_moves Q)
    !! i = Some plane ->
  (i < planes_size)%nat
  /\ exists mask,
       EncodePositionForNN history !! i = Some mask
       /\ forall byte bit, 0 <= byte < 8 -> 0 <= bit < 8 ->
            Z.testbit plane (8 * byte + bit)
            = Z.testbit mask (8 * byte + (7 - bit)).
Proof.
  assert (E : planes (get_v4_training_data game_result history played_move
                        legal_moves Q)
              = map resever_bits_in_bytes
                    (take planes_size (EncodePositionForNN history))).
  { unfold get_v4_training_data.
    by destruct game_result, (IsBlackToMove history). }
  rewrite E, list_lookup_fmap. intros Hl.
  destruct (take planes_size (EncodePositionForNN history) !! i) as [mask|]
    eqn:Hm; [|done].
  injection Hl as <-. apply lookup_take_Some in Hm as [Hm Hi].
  split; [done|]. exists mask. split; [done|].
  intros byte bit Hbyte Hbit.
  rewrite resever_bits_in_bytes_low by lia. by rewrite flip_in_byte_split.
Qed.

(** ** MoveTranslator: castling *)

(** A translated move carries the castling flag only when polyglot's move
    is a castling move and no promotion; it has no promotion piece then, and
    its to-square is on file 6 for the short castle and on file 2 for the
    long one, for either colour. *)
Theorem translated_castling_is_normalised `{Polyglot} (move : Z)
    (board : board_t) :
  castling (poly_move_to_lc0_move move board) = true ->
  move_is_promote move = false
  /\ move_is_castle move board = true
  /\ promotion (poly_move_to_lc0_move move board) = NoPromotion
  /\ col (to (poly_move_to_lc0_move move board))
     = (if square_file (move_from move) <? square_file (move_to move)
        then 6 else 2).
Proof.
  unfold poly_move_to_lc0_move.
  destruct (move_is_promote move), (move_is_castle move board),
    (colour_is_black (turn board)),
    (square_file (move_from move) <? square_file (move_to move));
    simpl; intros Hc; try done; repeat split; by eauto || lia.
Qed.

(** ** GameProcessor: what the loop writes and where it stops *)

Section WriterFacts.

Context `{Libc} `{Lc0} `{Polyglot}.

Variable max_games_per_directory : Z.
Variable options : Options.
Variable game_result : GameResult.

Local Abbreviation body :=
  (loop_body max_games_per_directory options game_result).
Local Abbreviation loop :=
  (move_loop max_games_per_directory options game_result).

Local Abbreviation writer' := (writer_of max_games_per_directory options).

(** A pass that reaches the end of the body appends the record of the
    move unless the move is annotation-filtered. *)
Lemma body_Continue_written st tok st' :
  body st tok = Continue st' ->
  written st'
  = written st
    ++ (if bad_move_of (last_read_nag tok) then []
        else [chunk_of options game_result st tok]).
Proof.
  intros Hb. pose proof (writer_of_chunks max_games_per_directory options
                           st tok) as Hc.
  apply body_Continue in Hb as (_ & _ & _ & [(-> & ->) | (-> & w & Hw & ->)]);
    unfold written at 1; simpl.
  - by rewrite Hc, app_nil_r.
  - by rewrite <- Hc, Hw.
Qed.

(** The write is reached with a null writer only outside strict mode,
    before the game has a writer, by a move without a comment that is not
    annotation-filtered. *)
Lemma body_NullWriter st tok st' :
  body st tok = NullWriter st' ->
  fishtest_mode options = false
  /\ writer st = None
  /\ accepted st tok = true
  /\ last_read_comment tok = ""%string
  /\ bad_move_of (last_read_nag tok) = false.
Proof.
  rewrite loop_body_eq. destruct (accepted st tok); [|done].
  destruct (score_of options st tok) as [| |s|e] eqn:Hs; [done| | |done].
  - apply score_NoScore in Hs as [Hc Hf].
    destruct (init_writer _ _ _ _); [|done].
    destruct (bad_move_of _); [done|].
    destruct (writer' st tok) eqn:Hw; [done|].
    rewrite writer_of_NoScore in Hw by by apply score_NoScore.
    done.
  - destruct (init_writer _ _ _ _) as [p|] eqn:Hi; [|done].
    destruct (bad_move_of _); [done|].
    destruct (writer_of_Score max_games_per_directory options st tok s Hs)
      as [w ->]; [|done].
    rewrite Hs. congruence.
Qed.

(** A filtered move without a comment, before the writer exists, leaves no
    trace in the writer. *)
Lemma body_Continue_null st tok st' :
  body st tok = Continue st' -> writer st' = None ->
  writer st = None
  /\ last_read_comment tok = ""%string
  /\ bad_move_of (last_read_nag tok) = true.
Proof.
  intros Hb Hn.
  apply body_Continue
    in Hb as (_ & Hs & Hi & [(Hbad & ->) | (_ & w & _ & ->)]); [|done].
  simpl in Hn. destruct Hs as [Hs | [s Hs]].
  - rewrite (writer_of_NoScore _ _ _ _ Hs) in Hn.
    split; [done|]. split; [|done]. by apply score_NoScore in Hs as [? _].
  - destruct (writer_of_Score max_games_per_directory options st tok s Hs Hi)
      as [w Hw]. congruence.
Qed.

(** The loop ends in the null writer at the first move that is not
    annotation-filtered, when neither that move nor a move before it has a
    comment. *)
Lemma loop_NullWriter toks : forall st st',
  loop st toks = NullWriter st' ->
  fishtest_mode options = false
  /\ writer st = None
  /\ exists pre tok rest,
       toks = pre ++ tok :: rest
       /\ Forall (fun t => last_read_comment t = ""%string
                           /\ bad_move_of (last_read_nag t) = true) pre
       /\ last_read_comment tok = ""%string
       /\ bad_move_of (last_read_nag tok) = false.
Proof.
  induction toks as [|tok toks IH]; intros st st'; simpl; [done|].
  destruct (body st tok) as [st1 | st1 | st1 | e st1 | st1] eqn:Hb;
    [|done| |done..].
  - intros Hl. destruct (IH _ _ Hl) as (Hf & Hn & pre & t & rest & -> & Hpre & Ht).
    destruct (body_Continue_null _ _ _ Hb Hn) as (Hn0 & Hc & Hbad).
    repeat split; [done..|].
    exists (tok :: pre), t, rest. repeat split; try done; try apply Ht.
    by constructor.
  - intros _. destruct (body_NullWriter _ _ _ Hb) as (Hf & Hn & _ & Hc & Hbad).
    repeat split; [done..|]. by exists [], tok, toks.
Qed.

(** When the loop runs to the end of the game, the writer holds one record
    more for each move that is not annotation-filtered. *)
Lemma loop_Continue_written toks : forall st st',
  loop st toks = Continue st' ->
  length (written st')
  = (length (written st) + length (unfiltered toks))%nat.
Proof.
  induction toks as [|tok toks IH]; intros st st'; simpl.
  - intros [= <-]. unfold unfiltered; simpl. lia.
  - destruct (body st tok) as [st1 | st1 | st1 | e st1 | st1] eqn:Hb;
      [|done..].
    intros Hl. rewrite (IH _ _ Hl).
    apply body_Continue_written in Hb as ->.
    unfold unfiltered.
    destruct (bad_move_of (last_read_nag tok)) eqn:Hbad.
    + rewrite filter_cons_False by by rewrite Hbad. by rewrite app_nil_r.
    + rewrite filter_cons_True by done. rewrite length_app. simpl. lia.
Qed.

(** The loop over a game in two parts. *)
Lemma loop_app pre : forall st st1 toks,
  loop st pre = Continue st1 -> loop st (pre ++ toks) = loop st1 toks.
Proof.
  induction pre as [|t pre IH]; intros st st1 toks; simpl.
  - by intros [= <-].
  - destruct (body st t); [apply IH | done..].
Qed.

End WriterFacts.

Section VerboseFacts.

Context `{Libc} `{Lc0} `{Polyglot}.

Variable max_games_per_directory : Z.
Variable game_result : GameResult.

(** The lines printed apart, a pass does not depend on [verbose]. *)
Lemma body_same_game o1 o2 a b tok :
  fishtest_mode o1 = fishtest_mode o2 ->
  same_game a b ->
  same_result (loop_body max_games_per_directory o1 game_result a tok)
              (loop_body max_games_per_directory o2 game_result b tok).
Proof.
  intros Hf (Hb & Hh & Hw & Hg).
  unfold loop_body, fishtest_score_of. rewrite Hb, Hh, Hw, Hg, Hf.
  destruct (_ || _); [done|].
  destruct (nonempty _);
    [destruct (move_is_mate _ _);
     [|destruct (extract_fishtest_comment_score _) as [[?|]|?]]
    |destruct (fishtest_mode o2)];
    try done;
    unfold init_writer, directory_of; destruct (writer b) eqn:Hwb; simpl;
    try destruct (max_games_per_directory =? 0); simpl;
    first [ done
          | by destruct (bad_move_of (last_read_nag tok))
          | unfold same_game; repeat split; congruence ].
Qed.

Lemma loop_same_game o1 o2 toks : forall a b,
  fishtest_mode o1 = fishtest_mode o2 ->
  same_game a b ->
  same_result (move_loop max_games_per_directory o1 game_result a toks)
              (move_loop max_games_per_directory o2 game_result b toks).
Proof.
  induction toks as [|tok toks IH]; intros a b Hf Hs; simpl; [done|].
  pose proof (body_same_game o1 o2 a b tok Hf Hs) as Hb.
  destruct (loop_body _ o1 _ a tok), (loop_body _ o2 _ b tok); try done.
  by apply IH.
Qed.

End VerboseFacts.

Section GameLevelFacts.

Context `{Libc} `{Lc0} `{Polyglot}.

Variable max_games_per_directory : Z.

(** The [verbose] option changes what is printed only: two calls on the
    same game that agree on [fishtest_mode] return the same value and leave
    the same shard, or both stop in the null writer. *)
Theorem verbose_changes_the_output_only pgn game_id o1 o2 :
  fishtest_mode o1 = fishtest_mode o2 ->
  files_of (write_one_game_training_data max_games_per_directory pgn game_id o1)
  = files_of (write_one_game_training_data max_games_per_directory pgn game_id
                o2).
Proof.
  intros Hf. unfold write_one_game_training_data.
  set (st0 := {| board := _; position_history := _; writer := None;
                 game_id := game_id; printed := [] |}).
  assert (Hl : same_result
                 (move_loop max_games_per_directory o1 (game_result_of pgn)
                    st0 (moves pgn))
                 (move_loop max_games_per_directory o2 (game_result_of pgn)
                    st0 (moves pgn)))
    by by apply loop_same_game.
  destruct (move_loop _ o1 _ st0 _) as [a|a|a|e a|a],
           (move_loop _ o2 _ st0 _) as [b|b|b|e' b|b];
    try done; simpl.
  - destruct Hl as (_ & _ & -> & _). by destruct (writer b).
  - destruct Hl as (_ & _ & -> & _). by destruct (writer b).
  - by destruct Hl as [-> _].
Qed.

Variable options : Options.

(** A call stops in [writer->WriteChunk] on a null writer only outside
    strict mode, and only at the first move of the game that is not
    annotation-filtered, when neither that move nor any move before it
    carries a comment. *)
Theorem crash_only_at_first_unfiltered_move pgn game_id out :
  write_one_game_training_data max_games_per_directory pgn game_id options
  = Crashed out ->
  fishtest_mode options = false
  /\ exists pre tok rest,
       moves pgn = pre ++ tok :: rest
       /\ Forall (fun t => last_read_comment t = ""%string
                           /\ bad_move_of (last_read_nag t) = true) pre
       /\ last_read_comment tok = ""%string
       /\ bad_move_of (last_read_nag tok) = false.
Proof.
  unfold write_one_game_training_data.
  destruct (move_loop _ _ _ _ _) as [st' | st' | st' | e st' | st'] eqn:Hl;
    [by destruct (writer st') | by destruct (writer st') | | done | done].
  intros _. apply loop_NullWriter in Hl as (Hf & _ & Hex). done.
Qed.

(** In strict mode a game whose first move carries no comment is skipped:
    the call returns [false] and leaves no shard, whatever the moves after
    it carry. *)
Theorem strict_mode_skips_game_without_first_comment pgn game_id tok rest :
  fishtest_mode options = true ->
  moves pgn = tok :: rest ->
  last_read_comment tok = ""%string ->
  exists out,
    write_one_game_training_data max_games_per_directory pgn game_id options
    = Returned false None out.
Proof.
  intros Hf Hm Hc. unfold write_one_game_training_data. rewrite Hm. simpl.
  rewrite loop_body_eq.
  destruct (accepted _ _); [|by eauto].
  unfold score_of, fishtest_score_of. rewrite Hc, Hf. simpl. by eauto.
Qed.

(** A game whose result is neither ["1-0"] nor ["0-1"], an unfinished
    game (["*"]) included, is recorded as a draw: every record of its shard
    has the label [0] and the draw confidence [1.0]. *)
Theorem undecided_game_is_recorded_as_draw pgn game_id game_written w out :
  pgn_result pgn <> "1-0"%string ->
  pgn_result pgn <> "0-1"%string ->
  write_one_game_training_data max_games_per_directory pgn game_id options
  = Returned game_written (Some w) out ->
  Forall (fun c => result c = 0 /\ root_d c = 1%float /\ best_d c = 1%float)
         (chunks w).
Proof.
  intros Hw Hb. unfold write_one_game_training_data.
  assert (Hd : game_result_of pgn = DRAW).
  { unfold game_result_of.
    destruct (String.eqb_spec (pgn_result pgn) "1-0"); [done|].
    by destruct (String.eqb_spec (pgn_result pgn) "0-1"). }
  rewrite Hd.
  set (st0 := {| board := _; position_history := _; writer := None;
                 game_id := game_id; printed := [] |}).
  assert (H0' : Forall (labelled DRAW) (written st0)) by constructor.
  destruct (move_loop _ _ _ st0 (moves pgn))
    as [st' | st' | st' | e st' | st'] eqn:Hl; [| |done..].
  all: assert (Hinv : Forall (labelled DRAW) (written st'))
    by (eapply move_loop_labelled; [exact H0' | by eauto]).
  all: unfold written in Hinv; destruct (writer st') as [w'|]; [|done];
    by intros [= <- <- <-].
Qed.

(** The value a call returns tells whether it leaves a shard: [true] with
    a shard, [false] without; and a shard it leaves is finalized and was
    opened under the game id the call received, in the directory of that
    id. *)
Theorem returned_value_tells_whether_a_shard_is_left pgn game_id game_written
    shard out :
  write_one_game_training_data max_games_per_directory pgn game_id options
  = Returned game_written shard out ->
  (game_written = true <-> is_Some shard)
  /\ forall w, shard = Some w ->
       finalized w = true
       /\ writer_game_id w = game_id
       /\ writer_dir w = game_id / max_games_per_directory.
Proof.
  intros Hret. apply write_one_game_shard in Hret.
  destruct shard as [w|].
  - destruct Hret as (-> & Hid & Hdir & Hfin). split; [by eauto|].
    by intros w' [= <-].
  - rewrite Hret. split; [|done]. split; [done | by intros [? [=]]].
Qed.

End GameLevelFacts.

Section LoopLevelFacts.

Context `{Libc} `{Lc0} `{Polyglot}.

Variable max_games_per_directory : Z.
Variable options : Options.
Variable game_result : GameResult.

Local Abbreviation loop :=
  (move_loop max_games_per_directory options game_result).

(** The loop stops at the first move that fails the legality test: its
    line is printed, the writer with the records of the moves before it is
    kept, and the moves after it are not looked at. *)
Theorem illegal_move_ends_the_game st pre tok rest st1 :
  loop st pre = Continue st1 ->
  accepted st1 tok = false ->
  loop st (pre ++ tok :: rest)
  = Break {| board := board st1; position_history := position_history st1;
             writer := writer st1; game_id := game_id st1;
             printed := printed st1 ++ [IllegalMove (move_text tok)] |}.
Proof.
  intros Hpre Hacc. rewrite (loop_app _ _ _ _ _ _ _ Hpre). simpl.
  by rewrite loop_body_eq, Hacc.
Qed.

(** A move that passes the legality test ends the loop for want of an
    evaluation in one case only: it has no comment and the mode is strict.
    A comment on a move that does not mate is never found to hold no
    evaluation: reading it throws [std::regex_error], which ends the
    program, in strict mode and outside of it. *)
Theorem game_stops_for_want_of_an_evaluation st tok :
  accepted st tok = true ->
  (loop_body max_games_per_directory options game_result st tok = Break st
   <-> last_read_comment tok = ""%string /\ fishtest_mode options = true)
  /\ (last_read_comment tok <> ""%string ->
      move_is_mate (move_of st tok) (board st) = false ->
      loop_body max_games_per_directory options game_result st tok
      = Uncaught regex_error st).
Proof.
  intros Hacc. rewrite loop_body_eq, Hacc.
  assert (Hs : score_of options st tok = ScoreBreak
               <-> last_read_comment tok = ""%string
                   /\ fishtest_mode options = true).
  { unfold score_of, fishtest_score_of.
    destruct (last_read_comment tok) as [|c text] eqn:Hc; simpl.
    - destruct (fishtest_mode options); split; try done. by intros [_ [=]].
    - rewrite ?extract_fishtest_comment_score_throws_eq.
      destruct (move_is_mate _ _); split; try done; by intros [[=] _]. }
  split.
  - rewrite <- Hs.
    destruct (score_of options st tok); split; try done.
    all: destruct (init_writer _ _ _ _); [|done];
      destruct (bad_move_of _); try done;
      by destruct (writer_of max_games_per_directory options st tok).
  - intros Hc Hm. rewrite score_ScoreThrows; [done | | done].
    by destruct (last_read_comment tok).
Qed.

(** When the loop reaches the end of the game, the writer has received
    exactly one record for each move that is not annotation-filtered,
    moves that were not found among lc0's legal moves included. *)
Theorem one_record_for_each_unfiltered_move st toks st' :
  loop st toks = Continue st' ->
  length (written st')
  = (length (written st) + length (unfiltered toks))%nat.
Proof. apply loop_Continue_written. Qed.

End LoopLevelFacts.

(** ** [main]: the conversion limit *)

Section MainBound.

Context `{Libc} `{Lc0} `{Polyglot}.

Variable max_games_per_directory : Z.
Variable max_games_to_convert : Z.
Variable options : Options.

(** The game counter does not pass the limit. *)
Lemma convert_file_bound games : forall st,
  main_game_id st <= max_games_to_convert ->
  main_game_id (convert_file max_games_per_directory max_games_to_convert
                  options games st) <= max_games_to_convert.
Proof.
  induction games as [|pgn games IH]; intros st Hb; simpl; [done|].
  destruct (crashed st); [done|].
  destruct (Z.ltb_spec (main_game_id st) max_games_to_convert); [|done].
  destruct (write_one_game_training_data _ _ _ _)
    as [gw shard out | out | e out | out]; [|done..].
  apply IH. simpl. destruct gw; lia.
Qed.

Lemma main_bound files :
  0 <= max_games_to_convert ->
  main_game_id (main max_games_per_directory max_games_to_convert options
                  files) <= max_games_to_convert.
Proof.
  intros H0'. unfold main.
  assert (Hb : main_game_id {| main_game_id := 0; shards := [];
                               crashed := false |} <= max_games_to_convert)
    by done.
  revert Hb. generalize {| main_game_id := 0; shards := []; crashed := false |}.
  induction files as [|games files IH]; intros st Hb; simpl; [done|].
  apply IH. by apply convert_file_bound.
Qed.

Lemma at_most_shards files :
  0 <= max_games_to_convert ->
  Z.of_nat (length (shards (main max_games_per_directory max_games_to_convert
                              options files)))
  <= max_games_to_convert.
Proof.
  intros H0'.
  destruct (main_numbered max_games_per_directory max_games_to_convert options
              files) as [<- _].
  by apply main_bound.
Qed.

(** [main] writes at most [max_games_to_convert] shards, over all the
    input files together. *)
Theorem at_most_max_games_to_convert_shards files :
  0 <= max_games_to_convert ->
  Z.of_nat (length (shards (main max_games_per_directory max_games_to_convert
                              options files)))
  <= max_games_to_convert.
Proof. apply at_most_shards. Qed.

End MainBound.

(** ** GameProcessor: the starting position *)

Section FenFacts.

Lemma skip_blanks_app b s :
  Forall (fun c => isspace c = true) b -> skip_blanks (b ++ s) = skip_blanks s.
Proof. induction 1 as [|c b Hc _ IH]; simpl; [done | by rewrite Hc]. Qed.

Lemma skip_blanks_field f s : fen_field f -> skip_blanks (f ++ s) = f ++ s.
Proof.
  intros [Hne Hf]. destruct Hf as [|c f Hc _]; [done|]. simpl. by rewrite Hc.
Qed.

Lemma skip_field_app f s :
  Forall (fun c => isspace c = false) f -> skip_field (f ++ s) = skip_field s.
Proof. induction 1 as [|c f Hc _ IH]; simpl; [done | by rewrite Hc]. Qed.

Lemma skip_field_rest tail : fen_rest tail -> skip_field tail = tail.
Proof. destruct tail as [|c tail]; simpl; [done | by intros ->]. Qed.

Lemma fen_gap_rest b s : fen_gap b -> fen_rest (b ++ s).
Proof. intros [Hne Hb]. destruct Hb as [|c b Hc _]; done. Qed.

(** [fen_str >> field] consumes the blanks before a field and the field. *)
Lemma read_field_app b f tail :
  Forall (fun c => isspace c = true) b -> fen_field f -> fen_rest tail ->
  read_field (b ++ f ++ tail) = tail.
Proof.
  intros Hb Hf Ht. unfold read_field.
  rewrite skip_blanks_app, skip_blanks_field, skip_field_app by (done || apply Hf).
  by apply skip_field_rest.
Qed.

Lemma read_field_gap b f tail :
  fen_gap b -> fen_field f -> fen_rest tail ->
  read_field (b ++ f ++ tail) = tail.
Proof. intros [_ Hb]. by apply read_field_app. Qed.

End FenFacts.

(** A FEN of the game that consists of four fields is completed with the
    two counters [" 0 0"] when nothing follows the fourth field, and is
    taken as it is when a blank follows it, even if nothing comes after
    that blank. *)
Theorem starting_fen_gets_missing_counters `{Lc0} (pgn : pgn_t)
    (lead f1 b1 f2 b2 f3 b3 f4 tail : list ascii) :
  Forall (fun c => isspace c = true) lead ->
  fen_field f1 /\ fen_field f2 /\ fen_field f3 /\ fen_field f4 ->
  fen_gap b1 /\ fen_gap b2 /\ fen_gap b3 ->
  fen_rest tail ->
  list_ascii_of_string (fen pgn)
  = lead ++ f1 ++ b1 ++ f2 ++ b2 ++ f3 ++ b3 ++ f4 ++ tail ->
  starting_fen pgn
  = match tail with
    | [] => (fen pgn ++ " 0 0")%string
    | _ :: _ => fen pgn
    end.
Proof.
  intros Hlead (F1 & F2 & F3 & F4) (B1 & B2 & B3) Ht Hfen.
  unfold starting_fen, eof_after_four_fields.
  assert (Hlen : (0 <? Z.of_nat (String.length (fen pgn))) = true).
  { destruct (fen pgn) as [|c text]; [|apply Z.ltb_lt; simpl; lia].
    simpl in Hfen. destruct lead; [|done]. destruct F1 as [Hne _].
    by destruct f1. }
  rewrite Hlen, Hfen.
  rewrite read_field_app by (done || by apply fen_gap_rest).
  rewrite !read_field_gap by (done || by apply fen_gap_rest).
  by destruct tail.
Qed.

(** ** [main]: the command line *)

Section CommandLineFacts.

Variable atoi : string -> Z.

Local Abbreviation parse := (parse_arguments atoi).

(** The scan reads past the end of [argv] exactly when the last word is
    one of the two numeric options. *)
Lemma parse_arguments_None argv : forall s,
  parse argv s = None
  <-> last argv = Some "-games-per-dir"%string
      \/ last argv = Some "-max-games-to-convert"%string.
Proof.
  induction argv as [|arg argv IH]; intros s.
  { simpl. split; [done | by intros [|]]. }
  assert (Hlast : argv <> [] -> last (arg :: argv) = last argv).
  { by destruct argv. }
  cbn [parse_arguments].
  destruct (String.eqb_spec "-v" arg) as [<- | Hv].
  { rewrite IH. destruct argv; [|by rewrite Hlast].
    simpl. split; [by intros [|] | by intros [[=] | [=]]]. }
  destruct (String.eqb_spec "-fishtest-mode" arg) as [<- | Hf].
  { rewrite IH. destruct argv; [|by rewrite Hlast].
    simpl. split; [by intros [|] | by intros [[=] | [=]]]. }
  destruct (String.eqb_spec "-games-per-dir" arg) as [<- | Hg].
  { destruct argv as [|value argv']; [simpl; split; [by left | done]|].
    by rewrite IH, Hlast. }
  destruct (String.eqb_spec "-max-games-to-convert" arg) as [<- | Hm].
  { destruct argv as [|value argv']; [simpl; split; [by right | done]|].
    by rewrite IH, Hlast. }
  rewrite IH. destruct argv; [|by rewrite Hlast].
  simpl. split; [by intros [|] | intros [[=] | [=]]; congruence].
Qed.

(** One more word in front of a scanned command line. *)
Lemma scanned_cons arg argv s0 s1 s :
  scanned atoi argv s1 s ->
  (verbose (options_of s1) = true
   <-> verbose (options_of s0) = true \/ arg = "-v"%string) ->
  (fishtest_mode (options_of s1) = true
   <-> fishtest_mode (options_of s0) = true \/ arg = "-fishtest-mode"%string) ->
  (if String.eqb "-games-per-dir" arg
   then exists value argv', argv = value :: argv'
                            /\ games_per_directory s1 = u64 (atoi value)
   else games_per_directory s1 = games_per_directory s0) ->
  (if String.eqb "-max-games-to-convert" arg
   then exists value argv', argv = value :: argv'
                            /\ games_to_convert s1 = u64 (atoi value)
   else games_to_convert s1 = games_to_convert s0) ->
  scanned atoi (arg :: argv) s0 s.
Proof.
  intros (Hv & Hf & Hg0 & Hg1 & Hm0 & Hm1) Hv1 Hf1 Hg Hm.
  repeat split.
  - rewrite Hv, Hv1. simpl. intros [[|]|]; by eauto.
  - rewrite Hv, Hv1. simpl. intros [|[|]]; by eauto.
  - rewrite Hf, Hf1. simpl. intros [[|]|]; by eauto.
  - rewrite Hf, Hf1. simpl. intros [|[|]]; by eauto.
  - simpl. intros Hno.
    destruct (String.eqb_spec "-games-per-dir" arg) as [<- | _];
      [by destruct Hno; left|].
    rewrite Hg0, Hg; [done | by eauto].
  - intros [|a pre] value post Heq Hno; simpl in Heq.
    + injection Heq as -> ->. rewrite String.eqb_refl in Hg.
      destruct Hg as (value' & argv' & [= <- <-] & Hg).
      by rewrite Hg0, Hg.
    + injection Heq as <- ->. by apply (Hg1 pre value post).
  - simpl. intros Hno.
    destruct (String.eqb_spec "-max-games-to-convert" arg) as [<- | _];
      [by destruct Hno; left|].
    rewrite Hm0, Hm; [done | by eauto].
  - intros [|a pre] value post Heq Hno; simpl in Heq.
    + injection Heq as -> ->. rewrite String.eqb_refl in Hm.
      destruct Hm as (value' & argv' & [= <- <-] & Hm).
      by rewrite Hm0, Hm.
    + injection Heq as <- ->. by apply (Hm1 pre value post).
Qed.

Local Ltac iff_flag :=
  split; [first [by left | by right]
         | first [done | intros [?|?]; first [done | congruence]]].

Lemma parse_arguments_scanned argv : forall s0 s,
  parse argv s0 = Some s -> scanned atoi argv s0 s.
Proof.
  induction argv as [|arg argv IH]; intros s0 s.
  { intros [= <-]. repeat split; simpl; try done; try (by left);
      try (by intros [|]); by intros [|a pre] value post. }
  cbn [parse_arguments].
  destruct (String.eqb_spec "-v" arg) as [<- | Hv].
  { intros Hp. apply (scanned_cons _ _ _ _ _ (IH _ _ Hp)); simpl;
      try done; try (by eauto); iff_flag. }
  destruct (String.eqb_spec "-fishtest-mode" arg) as [<- | Hf].
  { intros Hp. apply (scanned_cons _ _ _ _ _ (IH _ _ Hp)); simpl;
      try done; try (by eauto); iff_flag. }
  destruct (String.eqb_spec "-games-per-dir" arg) as [<- | Hg].
  { destruct argv as [|value argv']; [done|].
    intros Hp. apply (scanned_cons _ _ _ _ _ (IH _ _ Hp)); simpl;
      try done; try (by eauto); iff_flag. }
  destruct (String.eqb_spec "-max-games-to-convert" arg) as [<- | Hm].
  { destruct argv as [|value argv']; [done|].
    intros Hp. apply (scanned_cons _ _ _ _ _ (IH _ _ Hp)); simpl;
      try done; try (by eauto); iff_flag. }
  intros Hp. apply (scanned_cons _ _ _ _ _ (IH _ _ Hp)).
  - iff_flag.
  - iff_flag.
  - by destruct (String.eqb_spec "-games-per-dir" arg).
  - by destruct (String.eqb_spec "-max-games-to-convert" arg).
Qed.

(** The scan of the command line calls [std::atoi] on the null pointer
    that ends [argv] exactly when the last word of the command line is
    [-games-per-dir] or [-max-games-to-convert]. *)
Theorem parse_arguments_reads_past_the_end argv s :
  parse_arguments atoi argv s = None
  <-> last argv = Some "-games-per-dir"%string
      \/ last argv = Some "-max-games-to-convert"%string.
Proof. apply parse_arguments_None. Qed.

(** What a scan that reaches the end of the command line has set:
    [verbose] and [fishtest_mode] are on exactly when [-v] and
    [-fishtest-mode] occur among the words, wherever they stand; the two
    numeric settings keep their initial values [10000] and [10000000] when
    their option does not occur, and otherwise take the value, converted by
    [std::atoi] and to [size_t], of the word after the last occurrence of
    their option. *)
Theorem command_line_settings argv s :
  parse_arguments atoi argv default_settings = Some s ->
  (verbose (options_of s) = true <-> In "-v"%string argv)
  /\ (fishtest_mode (options_of s) = true <-> In "-fishtest-mode"%string argv)
  /\ (~ In "-games-per-dir"%string argv -> games_per_directory s = 10000)
  /\ (~ In "-max-games-to-convert"%string argv ->
      games_to_convert s = 10000000)
  /\ (forall pre value post,
        argv = pre ++ "-games-per-dir"%string :: value :: post ->
        ~ In "-games-per-dir"%string (value :: post) ->
        games_per_directory s = u64 (atoi value))
  /\ (forall pre value post,
        argv = pre ++ "-max-games-to-convert"%string :: value :: post ->
        ~ In "-max-games-to-convert"%string (value :: post) ->
        games_to_convert s = u64 (atoi value)).
Proof.
  intros Hp.
  destruct (parse_arguments_scanned _ _ _ Hp)
    as (Hv & Hf & Hg0 & Hg1 & Hm0 & Hm1).
  repeat split; try done.
  - intros Hs. by destruct (proj1 Hv Hs).
  - intros Hin. apply Hv. by right.
  - intros Hs. by destruct (proj1 Hf Hs).
  - intros Hin. apply Hf. by right.
Qed.

Context `{Libc} `{Lc0} `{Polyglot}.

Variable games_of_file : string -> option (list pgn_t).

(** The tool writes at most as many shards as the command line allows:
    [10000000] without [-max-games-to-convert], and the value given with
    the last occurrence of the option otherwise. *)
Theorem tool_respects_the_conversion_limit argv st :
  trainingdata_tool atoi games_of_file argv = Some st ->
  (~ In "-max-games-to-convert"%string argv ->
   Z.of_nat (length (shards st)) <= 10000000)
  /\ (forall pre value post,
        argv = pre ++ "-max-games-to-convert"%string :: value :: post ->
        ~ In "-max-games-to-convert"%string (value :: post) ->
        Z.of_nat (length (shards st)) <= u64 (atoi value)).
Proof.
  unfold trainingdata_tool.
  destruct (parse argv default_settings) as [s|] eqn:Hp; [|done].
  intros [= <-].
  destruct (parse_arguments_scanned _ _ _ Hp) as (_ & _ & _ & _ & Hm0 & Hm1).
  split.
  - intros Hno. change 10000000 with (games_to_convert default_settings).
    rewrite <- (Hm0 Hno). apply at_most_shards. by rewrite (Hm0 Hno).
  - intros pre value post Heq Hno.
    rewrite <- (Hm1 pre value post Heq Hno). apply at_most_shards.
    rewrite (Hm1 pre value post Heq Hno). unfold u64.
    apply Z.mod_pos_bound. lia.
Qed.

End CommandLineFacts.

(** ** The properties on concrete games *)

Section Examples.

Import Sample.

(** The comment of the specification's first scenario is never read, nor
    is the same comment without the plus sign, nor a mate marker. *)
Example score_never_read :
  extract_fishtest_comment_score "{+0.35/12 1.2s}" = Throws regex_error
  /\ extract_fishtest_comment_score "{0.35/12 1.2s}" = Throws regex_error
  /\ extract_fishtest_comment_score "{#-3/10 1.2s}" = Throws regex_error.
Proof. repeat split; reflexivity. Qed.

(** With the brace escaped the two patterns are patterns of the grammar;
    the first one finds the score of a comment and the second one the
    distance of a mate marker. *)
Example escaped_brace_is_a_pattern :
  (match Regex.compile "\{(-?\d+\.\d+)\/" with
   | Returns r =>
       option_map (fun matches => string_of_list_ascii (Regex.str matches 1))
         (Regex.regex_search
            (list_ascii_of_string "book {-0.35/12 1.2s} {1.50/3}") r)
   | Throws _ => None
   end) = Some "-0.35"%string
  /\ (match Regex.compile "\{#(-?\d+)\/" with
      | Returns r =>
          option_map
            (fun matches => string_of_list_ascii (Regex.str matches 1))
            (Regex.regex_search (list_ascii_of_string "{#-3/10 1.2s}") r)
      | Throws _ => None
      end) = Some "-3"%string.
Proof. split; reflexivity. Qed.

(** With the sample [exp] the converted score of [128] is exactly [1]: the
    sum [1 + exp(-51.2)] rounds to [1]. *)
Example convert_saturates :
  convert_sf_score_to_win_probability 128 = 1%float
  /\ convert_sf_score_to_win_probability (-128) = (-1)%float
  /\ convert_sf_score_to_win_probability 0 = 0%float.
Proof. repeat split; reflexivity. Qed.

(** In floating point the converted score is not odd either: with the
    sample [exp], the score [2^-51] converts to [2^-52] and its opposite
    converts to [0]. *)
Example convert_small_scores :
  convert_sf_score_to_win_probability 0x1p-51 = 0x1p-52%float
  /\ convert_sf_score_to_win_probability (-0x1p-51) = 0%float.
Proof. split; reflexivity. Qed.



(** C10 on the first move of a game: no comment, no glyph, no writer. *)
Lemma write_chunk_on_null_writer_sample :
  loop_body 10000 options DRAW start (token "e4" "" "")
  = NullWriter start.
Proof.
  apply (write_chunk_on_null_writer 10000 options DRAW start
           (token "e4" "" "")); reflexivity.
Defined.

Example first_move_without_comment :
  write_one_game_training_data 10000 (game "1/2-1/2" [token "e4" "" ""]) 0
    options
  = Crashed [].
Proof. reflexivity. Qed.

(** C3 on White's mating move with a comment that holds no score. *)
Lemma mate_score_by_side_before_move_sample :
  score_of options middle (token "Qxf7#" "{book}" "") = Score 128%float.
Proof.
  apply (mate_score_by_side_before_move options middle
           (token "Qxf7#" "{book}" "")); reflexivity.
Defined.

(** C3 as stated fails twice.  White mates with a commented move: Black,
    the side that is mated, is to move afterwards, yet the evaluation is
    [+128].  And a mating move without a comment gets no evaluation: the
    loop goes on with [Q = 0] outside strict mode and stops in it. *)
Lemma mate_score_counterexample :
  let commented := token "Qxf7#" "{#1/2 0.1s}" "" in
  let bare := token "Qxf7#" "" "" in
  (move_is_mate (move_of middle commented) (board middle) = true
   /\ IsBlackToMove (Append (position_history middle)
                            (lc0_move_of middle commented)) = true
   /\ score_of options middle commented = Score 128%float)
  /\ (move_is_mate (move_of middle bare) (board middle) = true
      /\ score_of options middle bare = NoScore
      /\ score_of strict middle bare = ScoreBreak).
Proof. repeat split; reflexivity. Qed.





(** C9 as stated fails on Black's short castle: the king goes from e8 to
    the rook's square h8 in polyglot, the translated move goes to file 6,
    and mirroring it back gives g8. *)
Lemma mirror_back_counterexample :
  colour_is_black (turn (1 : board_t)) = true
  /\ to_square e8h8 = mkBoardSquare 7 7
  /\ to (Mirror (poly_move_to_lc0_move e8h8 1)) = mkBoardSquare 7 6.
Proof. repeat split; reflexivity. Qed.

(** C9, as amended, on Black's pawn move and on Black's short castle. *)
Lemma mirror_back_after_translation_sample :
  (from (Mirror (poly_move_to_lc0_move e7e5 1)) = from_square e7e5
   /\ to (Mirror (poly_move_to_lc0_move e7e5 1)) = to_square e7e5)
  /\ (from (Mirror (poly_move_to_lc0_move e8h8 1)) = from_square e8h8
      /\ col (to (Mirror (poly_move_to_lc0_move e8h8 1))) = 6).
Proof.
  split.
  - destruct (mirror_back_after_translation (H := polyglot) e7e5 1 eq_refl)
      as (Hf & _ & Ht).
    split; [exact Hf | exact Ht].
  - destruct (mirror_back_after_translation (H := polyglot) e8h8 1 eq_refl)
      as (Hf & _ & Ht).
    split; [exact Hf | exact Ht].
Defined.

(** C8 on a game White wins by the mate on f7: the record stores the
    position with White to move and carries the label [+1] and the draw
    confidence [0.0]. *)
Lemma emitted_records_carry_game_result_sample :
  match write_one_game_training_data 10000
          (game_from white_mates "1-0" [token "Qxf7#" "{mate}" ""]) 0
          options with
  | Returned _ (Some w) _ =>
      map (fun c => (side_to_move c, result c)) (chunks w) = [(0, 1)]
      /\ Forall (fun c =>
                   exists history,
                     position_of
                       (game_from white_mates "1-0"
                          [token "Qxf7#" "{mate}" ""]) history
                     /\ stores c history
                     /\ result c = label_for "1-0" (to_move history)
                     /\ root_d c = 0%float
                     /\ best_d c = 0%float)
                (chunks w)
  | _ => False
  end.
Proof.
  assert (T := emitted_records_carry_game_result 10000 options
                 (game_from white_mates "1-0" [token "Qxf7#" "{mate}" ""])
                 0).
  destruct (write_one_game_training_data _ _ _ _)
    as [game_written [w|] out | out | e out | out] eqn:E;
    try (vm_compute in E; discriminate E).
  split.
  - vm_compute in E. injection E as _ <- _. reflexivity.
  - exact (proj1 (T game_written w out eq_refl)).
Defined.

(** C6 on a game from the position with the mate on f7 at hand, whose
    only move is annotated with the glyph 20. *)
Lemma game_without_records_advances_counter_sample :
  main_game_id
    (main 1 100 options
       [[game_from white_mates "1-0" [token "Qxf7#" "{mate}" "20"]]]) = 1
  /\ map (fun w => length (chunks w))
         (shards
            (main 1 100 options
               [[game_from white_mates "1-0"
                   [token "Qxf7#" "{mate}" "20"]]])) = [0%nat].
Proof.
  apply (game_without_records_advances_counter 1 100 options
           (game_from white_mates "1-0" [token "Qxf7#" "{mate}" "20"])
           (token "Qxf7#" "{mate}" "20"));
    first [reflexivity | lia].
Defined.

(** With one game to a directory, the game after such a game, the first to
    produce a record, is written under the game id 1 in the directory 1. *)
Example game_after_game_without_records :
  map (fun w => (writer_game_id w, writer_dir w, length (chunks w)))
      (shards
         (main 1 100 options
            [[game_from white_mates "1-0" [token "Qxf7#" "{mate}" "20"];
              game_from black_mates "0-1" [token "Qh4#" "{mate}" ""]]]))
  = [(0, 0, 0%nat); (1, 1, 1%nat)].
Proof. vm_compute. reflexivity. Qed.

(** The numbering of the shards on three games, the second of which is
    skipped for want of a comment in strict mode. *)
Lemma partition_of_nth_written_game_sample :
  exists w,
    shards (main 1 100 strict
              [[game_from white_mates "1-0" [token "Qxf7#" "{mate}" ""];
                game "0-1" [token "e4" "" ""];
                game_from black_mates "0-1" [token "Qh4#" "{mate}" ""]]])
      !! 1%nat = Some w
    /\ writer_game_id w = 1 /\ writer_dir w = 1.
Proof.
  eexists. split; [vm_compute; reflexivity|].
  apply (partition_of_nth_written_game 1 100 strict
           [[game_from white_mates "1-0" [token "Qxf7#" "{mate}" ""];
             game "0-1" [token "e4" "" ""];
             game_from black_mates "0-1" [token "Qh4#" "{mate}" ""]]] 1).
  vm_compute. reflexivity.
Defined.

End Examples.

(** ** More properties on concrete inputs *)

Section MoreExamples.

Import Sample.

(** The lowest bit of the last byte goes to the top of that byte. *)
Lemma resever_bits_in_bytes_reverses_each_byte_sample :
  Z.testbit (resever_bits_in_bytes 0x0100000000000000) (8 * 7 + 7) = true.
Proof.
  rewrite (resever_bits_in_bytes_reverses_each_byte 0x0100000000000000 7 7);
    [reflexivity | lia | lia].
Defined.

(** A mask of the sample encoder, reversed twice. *)
Lemma resever_bits_in_bytes_involutive_sample :
  0 <= resever_bits_in_bytes 0x00FF00000000FF01 < 2 ^ 64
  /\ resever_bits_in_bytes (resever_bits_in_bytes 0x00FF00000000FF01)
     = 0x00FF00000000FF01.
Proof. apply resever_bits_in_bytes_involutive. lia. Defined.

(** The last plane of a record of the sample encoder, whose masks have the
    lowest bit set: the plane has the bit 7 of its first byte set. *)
Lemma record_planes_are_byte_reversed_sample :
  exists plane,
    planes (get_v4_training_data DRAW (false, 0)
              (Move_of (mkBoardSquare 1 4) (mkBoardSquare 3 4)) legal_moves
              0%float) !! 103%nat = Some plane
    /\ Z.testbit plane (8 * 0 + 7) = true.
Proof.
  eexists. split; [reflexivity|].
  destruct (record_planes_are_byte_reversed (H := lc0) DRAW (false, 0)
              (Move_of (mkBoardSquare 1 4) (mkBoardSquare 3 4)) legal_moves
              0%float 103 (resever_bits_in_bytes 0x00FF00000000FF01) eq_refl)
    as (_ & mask & Hm & Hbits).
  injection Hm as <-. rewrite Hbits by lia. reflexivity.
Defined.

(** Black's short castle, king to the rook's square in polyglot. *)
Lemma translated_castling_is_normalised_sample :
  move_is_promote e8h8 = false
  /\ move_is_castle e8h8 (1 : board_t) = true
  /\ promotion (poly_move_to_lc0_move e8h8 (1 : board_t)) = NoPromotion
  /\ col (to (poly_move_to_lc0_move e8h8 (1 : board_t))) = 6.
Proof.
  exact (translated_castling_is_normalised (H := polyglot) e8h8 1 eq_refl).
Defined.

(** A game that stops in the null writer at its second move: the first
    move is annotation-filtered and neither has a comment. *)
Lemma crash_only_at_first_unfiltered_move_sample :
  fishtest_mode options = false
  /\ exists pre tok rest,
       [token "e4" "" "2"; token "e5" "" ""; token "Nf3" "{0.30/10 1s}" ""]
       = pre ++ tok :: rest
       /\ Forall (fun t => last_read_comment t = ""%string
                           /\ bad_move_of (last_read_nag t) = true) pre
       /\ last_read_comment tok = ""%string
       /\ bad_move_of (last_read_nag tok) = false.
Proof.
  apply (crash_only_at_first_unfiltered_move 10000 options
           (game "1-0" [token "e4" "" "2"; token "e5" "" "";
                        token "Nf3" "{0.30/10 1s}" ""]) 0 []).
  vm_compute. reflexivity.
Defined.

(** In strict mode the comment of the second move does not save a game
    whose first move has none. *)
Lemma strict_mode_skips_game_without_first_comment_sample :
  exists out,
    write_one_game_training_data 10000
      (game "1-0" [token "e4" "" ""; token "e5" "{-0.20/11 1s}" ""]) 0 strict
    = Returned false None out.
Proof.
  apply (strict_mode_skips_game_without_first_comment 10000 strict
           (game "1-0" [token "e4" "" ""; token "e5" "{-0.20/11 1s}" ""]) 0
           (token "e4" "" "") [token "e5" "{-0.20/11 1s}" ""]);
    reflexivity.
Defined.

(** An unfinished game that ends with the mate on f7. *)
Lemma undecided_game_is_recorded_as_draw_sample :
  match write_one_game_training_data 10000
          (game_from white_mates "*" [token "Qxf7#" "{mate}" ""]) 0
          options with
  | Returned _ (Some w) _ =>
      length (chunks w) = 1%nat
      /\ Forall (fun c => result c = 0 /\ root_d c = 1%float
                          /\ best_d c = 1%float)
                (chunks w)
  | _ => False
  end.
Proof.
  assert (T := undecided_game_is_recorded_as_draw 10000 options
                 (game_from white_mates "*" [token "Qxf7#" "{mate}" ""]) 0).
  destruct (write_one_game_training_data _ _ _ _)
    as [game_written [w|] out | out | e out | out] eqn:E;
    try (vm_compute in E; discriminate E).
  split.
  - vm_compute in E. injection E as _ <- _. reflexivity.
  - apply (T game_written w out); [discriminate | discriminate | reflexivity].
Defined.

(** A game that ends with a mate the sample lc0 does not generate, so that
    a line is printed. *)
Lemma verbose_changes_the_output_only_sample :
  files_of (write_one_game_training_data 10000
              (game_from white_mates "1-0" [token "Qxf7#" "{mate}" ""]) 0
              {| verbose := true; fishtest_mode := true |})
  = files_of (write_one_game_training_data 10000
                (game_from white_mates "1-0" [token "Qxf7#" "{mate}" ""]) 0
                strict).
Proof. apply verbose_changes_the_output_only. reflexivity. Defined.

(** A game whose second move is not legal: the first move, which is
    annotation-filtered and has no comment, is executed, and the third move
    is not read. *)
Lemma illegal_move_ends_the_game_sample :
  move_loop 10000 options WHITE_WON start
    ([token "e4" "" "2"]
     ++ token "Ke3" "" "" :: [token "e5" "" ""])
  = Break
      {| board := 1;
         position_history := (true, 1);
         writer := None;
         game_id := 0;
         printed := [IllegalMove "Ke3"] |}.
Proof.
  erewrite (illegal_move_ends_the_game 10000 options WHITE_WON start
              [token "e4" "" "2"] (token "Ke3" "" "")
              [token "e5" "" ""]).
  2: reflexivity.
  2: reflexivity.
  reflexivity.
Defined.

(** Three moves without comments in a game with its writer open, the
    second of them annotation-filtered: two records. *)
Lemma one_record_for_each_unfiltered_move_sample :
  match move_loop 10000 options DRAW opened
          [token "e5" "" ""; token "Nf3" "" "2"; token "Nc6" "" ""] with
  | Continue st' => length (written st') = 2%nat
  | _ => False
  end.
Proof.
  assert (T := one_record_for_each_unfiltered_move 10000 options DRAW opened
                 [token "e5" "" ""; token "Nf3" "" "2"; token "Nc6" "" ""]).
  destruct (move_loop _ _ _ _ _) as [st' | st' | st' | e st' | st'] eqn:E;
    [exact (T st' eq_refl) | discriminate E..].
Defined.

(** In strict mode a first move without a comment ends the game; a comment
    without a score on a move that does not mate ends the program. *)
Lemma game_stops_for_want_of_an_evaluation_sample :
  loop_body 10000 strict DRAW start (token "e4" "" "") = Break start
  /\ loop_body 10000 options DRAW opened (token "e5" "{book}" "")
     = Uncaught regex_error opened.
Proof.
  split.
  - apply (game_stops_for_want_of_an_evaluation 10000 strict DRAW start
             (token "e4" "" "") eq_refl). done.
  - apply (game_stops_for_want_of_an_evaluation 10000 options DRAW opened
             (token "e5" "{book}" "") eq_refl); [discriminate | reflexivity].
Defined.

(** Three games in two files with a limit of two. *)
Lemma at_most_max_games_to_convert_shards_sample :
  Z.of_nat
    (length
       (shards
          (main 1 2 options
             [[game_from white_mates "1-0" [token "Qxf7#" "{mate}" ""];
               game_from black_mates "0-1" [token "Qh4#" "{mate}" ""]];
              [game_from white_mates "1-0" [token "Qxf7#" "{mate}" ""]]])))
  <= 2.
Proof. apply at_most_max_games_to_convert_shards. lia. Defined.

(** A FEN of four fields. *)
Lemma starting_fen_gets_missing_counters_sample :
  starting_fen {| fen := "4k3/8/8/8/8/8/8/4K3 b - -"; pgn_result := "*";
                  moves := [] |}
  = "4k3/8/8/8/8/8/8/4K3 b - - 0 0"%string.
Proof.
  apply (starting_fen_gets_missing_counters
           {| fen := "4k3/8/8/8/8/8/8/4K3 b - -"; pgn_result := "*";
              moves := [] |}
           [] (list_ascii_of_string "4k3/8/8/8/8/8/8/4K3") [" "%char]
           ["b"%char] [" "%char] ["-"%char] [" "%char] ["-"%char] []);
    repeat first [split | constructor | discriminate | reflexivity].
Defined.

(** A command line with a file name between two options. *)
Lemma command_line_settings_sample :
  let s := {| options_of := {| verbose := false; fishtest_mode := true |};
              games_per_directory := 500;
              games_to_convert := 10000000 |} in
  (verbose (options_of s) = true <-> In "-v"%string
     ["tool"; "-games-per-dir"; "500"; "games.pgn"; "-fishtest-mode"]%string)
  /\ fishtest_mode (options_of s) = true
  /\ games_per_directory s = u64 (atoi_decimal "500").
Proof.
  intros s.
  destruct (command_line_settings atoi_decimal
              ["tool"; "-games-per-dir"; "500"; "games.pgn";
               "-fishtest-mode"]%string s eq_refl)
    as (Hv & Hf & _ & _ & Hg & _).
  split; [exact Hv|]. split; [reflexivity|].
  apply (Hg ["tool"%string] "500"%string
            ["games.pgn"; "-fishtest-mode"]%string eq_refl).
  simpl. intros [|[|[|]]]; discriminate || done.
Defined.

(** A file of two games converted with a limit of one. *)
Lemma tool_respects_the_conversion_limit_sample :
  match trainingdata_tool atoi_decimal
          (fun name =>
             if String.eqb name "games.pgn"
             then Some [game_from white_mates "1-0"
                          [token "Qxf7#" "{mate}" ""];
                        game_from black_mates "0-1"
                          [token "Qh4#" "{mate}" ""]]
             else None)
          ["tool"; "-max-games-to-convert"; "1"; "games.pgn"]%string with
  | Some st => Z.of_nat (length (shards st)) <= 1
  | None => False
  end.
Proof.
  assert (T := tool_respects_the_conversion_limit atoi_decimal
                 (fun name =>
                    if String.eqb name "games.pgn"
                    then Some [game_from white_mates "1-0"
                                 [token "Qxf7#" "{mate}" ""];
                               game_from black_mates "0-1"
                                 [token "Qh4#" "{mate}" ""]]
                    else None)
                 ["tool"; "-max-games-to-convert"; "1"; "games.pgn"]%string).
  destruct (trainingdata_tool _ _ _) as [st|] eqn:E; [|discriminate E].
  apply (proj2 (T st eq_refl) ["tool"%string] "1"%string
           ["games.pgn"%string] eq_refl).
  simpl. intros [|[|]]; discriminate || done.
Defined.

(** The fifth game of a run, won by the mate on f7, with 3 games to a
    directory. *)
Lemma returned_value_tells_whether_a_shard_is_left_sample :
  match write_one_game_training_data 3
          (game_from white_mates "1-0" [token "Qxf7#" "{mate}" ""]) 4
          options with
  | Returned game_written (Some w) _ =>
      game_written = true
      /\ finalized w = true /\ writer_game_id w = 4 /\ writer_dir w = 1
  | _ => False
  end.
Proof.
  assert (T := returned_value_tells_whether_a_shard_is_left 3 options
                 (game_from white_mates "1-0" [token "Qxf7#" "{mate}" ""])
                 4).
  destruct (write_one_game_training_data _ _ _ _)
    as [game_written [w|] out | out | e out | out] eqn:E;
    try (vm_compute in E; discriminate E).
  destruct (T game_written (Some w) out eq_refl) as [Hw Hs].
  split; [apply Hw; by eauto|]. exact (Hs w eq_refl).
Defined.

End MoreExamples.
